(** * ARP spoof detection simulator (sdn.py): shallow embedding and properties

    The Python script keeps one [SimpleController] and a host roster in the
    Streamlit session state, reads the wall clock whenever it logs, and draws
    from the [random] module when it builds the roster or picks an event.
    The embedding threads all of that through one [World] value:

    - the controller's dict [arp_table] is an insertion-ordered association
      list (Python dicts iterate in insertion order, which [draw_graph] uses),
    - [blocked_macs] is a finite set of strings,
    - the wall clock and the random generator are two oracles, [clock] and
      [rand], indexed by the number of reads made so far,
    - Python exceptions are the [Raise] results of a state-and-error monad. *)

From Stdlib Require Import NArith QArith String Ascii DecimalString HexadecimalString
  DecimalNat.
From stdpp Require Import gmap strings list.

Open Scope string_scope.
Open Scope list_scope.

(** ** Text formatting *)

(** [str(i)] on a non-negative int. *)
Definition str (n : nat) : string :=
  DecimalString.NilEmpty.string_of_uint (Nat.to_uint n).

Fixpoint zeros (k : nat) : string :=
  match k with
  | O => ""
  | S k' => String "0" (zeros k')
  end.

(** Left padding with the digit 0 up to [width] characters, as the [0] flag of
    a printf conversion does on a non-negative number. *)
Definition zero_pad (width : nat) (s : string) : string :=
  zeros (width - String.length s) +:+ s.

(** ["%02x" % v] and [f"{v:02x}"] for [v >= 0]. *)
Definition fmt_02x (v : N) : string :=
  zero_pad 2 (HexadecimalString.NilEmpty.string_of_uint (N.to_hex_uint v)).

(** The two-digit decimal fields of [strftime]. *)
Definition fmt_02d (v : N) : string :=
  zero_pad 2 (DecimalString.NilEmpty.string_of_uint (N.to_uint v)).

(** [time.strftime("%H:%M:%S")] at local time [t], counted in seconds. *)
Definition strftime_HMS (t : N) : string :=
  fmt_02d ((t / 3600) mod 24) +:+ ":" +:+ fmt_02d ((t / 60) mod 60) +:+ ":"
    +:+ fmt_02d (t mod 60).

(** [sep.join(parts)]. *)
Definition join (sep : string) (parts : list string) : string :=
  String.concat sep parts.

(** The f-string of [_log]: [f"[{ts}] {lvl}: {msg}"]. *)
Definition log_line (ts lvl msg : string) : string :=
  "[" +:+ ts +:+ "] " +:+ lvl +:+ ": " +:+ msg.

(** ** Python dict with string keys and values *)

Definition dict : Type := list (string * string).

Fixpoint dict_get (d : dict) (k : string) : option string :=
  match d with
  | [] => None
  | (k', v) :: d' => if decide (k' = k) then Some v else dict_get d' k
  end.

(** [d[k] = v]: an existing key keeps its position, a new key goes last. *)
Fixpoint dict_set (d : dict) (k v : string) : dict :=
  match d with
  | [] => [(k, v)]
  | (k', v') :: d' =>
      if decide (k' = k) then (k', v) :: d' else (k', v') :: dict_set d' k v
  end.

Definition dict_keys (d : dict) : list string := map fst d.

(** ** Session state and effects *)

Record SimpleController : Type := mkController {
  arp_table : dict;              (* ip -> mac *)
  blocked_macs : gset string;
  block_on_detect : bool;
  logs : list string
}.

(** [SimpleController.__init__]. *)
Definition SimpleController_init (block_on_detect : bool) : SimpleController :=
  mkController [] ∅ block_on_detect [].

Definition Host : Type := (string * string)%type.

Record World : Type := mkWorld {
  ctrl : SimpleController;       (* st.session_state.ctrl *)
  hosts : list Host;             (* st.session_state.hosts *)
  started : bool;                (* st.session_state.started *)
  clock_reads : nat;             (* wall-clock reads made so far *)
  rng_draws : nat                (* values drawn from [random] so far *)
}.

Inductive exn : Type := IndexError | KeyError.

Inductive result (A : Type) : Type :=
  | Ok (a : A)
  | Raise (e : exn).
Arguments Ok {A} a.
Arguments Raise {A} e.

Definition M (A : Type) : Type := World -> result A * World.

Definition ret {A} (a : A) : M A := fun w => (Ok a, w).

Definition bind {A B} (m : M A) (k : A -> M B) : M B :=
  fun w =>
    match m w with
    | (Ok a, w') => k a w'
    | (Raise e, w') => (Raise e, w')
    end.

Definition raise {A} (e : exn) : M A := fun w => (Raise e, w).

Notation "'let*' x ':=' c1 'in' c2" := (bind c1 (fun x => c2))
  (at level 10, x name, c1 at level 100, c2 at level 200).
Notation "'exec' c1 'in' c2" := (bind c1 (fun _ => c2))
  (at level 10, c1 at level 100, c2 at level 200).

Definition gets {A} (f : World -> A) : M A := fun w => (Ok (f w), w).

Definition modify (f : World -> World) : M unit := fun w => (Ok tt, f w).

Definition with_ctrl (f : SimpleController -> SimpleController) (w : World) : World :=
  mkWorld (f (ctrl w)) (hosts w) (started w) (clock_reads w) (rng_draws w).

Definition set_arp_table (t : dict) (c : SimpleController) : SimpleController :=
  mkController t (blocked_macs c) (block_on_detect c) (logs c).

Definition set_blocked_macs (b : gset string) (c : SimpleController) : SimpleController :=
  mkController (arp_table c) b (block_on_detect c) (logs c).

Definition set_block_on_detect (b : bool) (c : SimpleController) : SimpleController :=
  mkController (arp_table c) (blocked_macs c) b (logs c).

Definition set_logs (l : list string) (c : SimpleController) : SimpleController :=
  mkController (arp_table c) (blocked_macs c) (block_on_detect c) l.

Definition set_hosts (h : list Host) (w : World) : World :=
  mkWorld (ctrl w) h (started w) (clock_reads w) (rng_draws w).

Definition set_started (b : bool) (w : World) : World :=
  mkWorld (ctrl w) (hosts w) b (clock_reads w) (rng_draws w).

(** [for x in xs: body(x)]. *)
Fixpoint for_each {A} (xs : list A) (body : A -> M unit) : M unit :=
  match xs with
  | [] => ret tt
  | x :: xs' => exec body x in for_each xs' body
  end.

(** [d[k]] as an expression: a missing key raises. *)
Definition dict_getitem (d : dict) (k : string) : M string :=
  match dict_get d k with
  | Some v => ret v
  | None => raise KeyError
  end.

(** ** Simulation controls (the sidebar widgets) *)

Module Sidebar.

Inductive Mode : Type := basic | random.

Record t : Type := mk {
  mode : Mode;
  hosts_count : nat;             (* 2 to 10 on the slider *)
  spoof_chance : Q;              (* a float, kept as the rational it denotes *)
  speed : Q;
  block_on_detect : bool;
  run : bool;
  step : bool;
  reset : bool
}.

End Sidebar.

Section Simulator.

(** [clock n] is the local time, in seconds, at the [n]-th read of the wall
    clock; [rand n] is the raw value of the [n]-th draw of the generator. *)
Variable clock : nat -> N.
Variable rand : nat -> N.

(** ** Simulator core: [SimpleController] *)

Definition time_strftime_HMS : M string :=
  fun w =>
    (Ok (strftime_HMS (clock (clock_reads w))),
     mkWorld (ctrl w) (hosts w) (started w) (S (clock_reads w)) (rng_draws w)).

Definition _log (lvl msg : string) : M string :=
  let* ts := time_strftime_HMS in
  let line := log_line ts lvl msg in
  exec modify (with_ctrl (fun c => set_logs (logs c ++ [line]) c)) in
  ret line.

Definition block_mac (mac : string) : M (option string) :=
  let* blocked := gets (fun w => blocked_macs (ctrl w)) in
  if decide (mac ∉ blocked) then
    exec modify (with_ctrl (fun c => set_blocked_macs (blocked_macs c ∪ {[mac]}) c)) in
    let* line := _log "MITIGATE" ("Blocking MAC " +:+ mac +:+ " (simulated drop flow).") in
    ret (Some line)
  else
    ret None.

Definition receive_arp (src_ip src_mac pkt_info : string) : M string :=
  let* blocked := gets (fun w => blocked_macs (ctrl w)) in
  if decide (src_mac ∈ blocked) then
    _log "DROP" ("Packet from blocked MAC " +:+ src_mac +:+ " dropped. ("
                 +:+ pkt_info +:+ ")")
  else
    let* table := gets (fun w => arp_table (ctrl w)) in
    let conflict :=
      match dict_get table src_ip with
      | Some cur => bool_decide (cur ≠ src_mac)
      | None => false
      end in
    if conflict then
      let* old := dict_getitem table src_ip in
      let* alert := _log "ALERT" ("ARP spoof detected: IP " +:+ src_ip +:+ " was " +:+ old
                             +:+ ", now " +:+ src_mac +:+ ". (" +:+ pkt_info +:+ ")") in
      let* auto := gets (fun w => block_on_detect (ctrl w)) in
      exec (if auto then exec block_mac src_mac in ret tt else ret tt) in
      ret alert
    else
      (* learn mapping *)
      exec modify (with_ctrl (fun c => set_arp_table (dict_set (arp_table c) src_ip src_mac) c)) in
      _log "LEARN" ("Learned " +:+ src_ip +:+ " -> " +:+ src_mac +:+ ". ("
                    +:+ pkt_info +:+ ")").

(** ** Utilities: the [random] module and [random_mac] *)

Definition next_draw : M N :=
  fun w =>
    (Ok (rand (rng_draws w)),
     mkWorld (ctrl w) (hosts w) (started w) (clock_reads w) (S (rng_draws w))).

(** [random.random()]: a float [k / 2^53] with [0 <= k < 2^53], kept as the
    rational it denotes. *)
Definition random_random : M Q :=
  let* r := next_draw in
  ret (Z.of_N (r mod 2 ^ 53) # 2 ^ 53).

(** [random.randint(a, b)]: an integer of [a..b], both ends included. *)
Definition random_randint (a b : N) : M N :=
  let* r := next_draw in
  ret (a + r mod (b - a + 1))%N.

(** [random.choice(seq)]. *)
Definition random_choice {A} (seq : list A) : M A :=
  match seq with
  | [] => raise IndexError
  | x :: _ =>
      let* r := next_draw in
      ret (nth (N.to_nat (r mod N.of_nat (length seq))) seq x)
  end.

(** [seq[i]]. *)
Definition list_getitem {A} (seq : list A) (i : nat) : M A :=
  match seq !! i with
  | Some x => ret x
  | None => raise IndexError
  end.

(** [["%02x" % random.randint(0,255) for _ in range(n)]]. *)
Fixpoint random_groups (n : nat) : M (list string) :=
  match n with
  | O => ret []
  | S n' =>
      let* v := random_randint 0 255 in
      let* rest := random_groups n' in
      ret (fmt_02x v :: rest)
  end.

(** Truth value of the argument [prefix]: [None] and the empty string are false. *)
Definition truthy (prefix : option string) : bool :=
  match prefix with
  | Some p => bool_decide (p ≠ "")
  | None => false
  end.

Definition random_mac (prefix : option string) : M string :=
  if truthy prefix then
    let* groups := random_groups 4 in
    ret (default "" prefix +:+ ":" +:+ join ":" groups)
  else
    let* groups := random_groups 6 in
    ret (join ":" groups).

(** ** Session state initialization *)

(** One round of the loop that creates the hosts. *)
Definition create_host (i : nat) : M unit :=
  let ip := "10.0.0." +:+ str i in
  let* b1 := random_randint 0 255 in
  let* b2 := random_randint 0 255 in
  let* b3 := random_randint 0 255 in
  let* b4 := random_randint 0 255 in
  let mac := "02:00:" +:+ fmt_02x b1 +:+ ":" +:+ fmt_02x b2 +:+ ":" +:+ fmt_02x b3
               +:+ ":" +:+ fmt_02x b4 in
  modify (fun w => set_hosts (hosts w ++ [(ip, mac)]) w).

(** The body of [if 'ctrl' not in st.session_state or reset]; the list
    [logs_buf] it also resets is never read and is left out. *)
Definition session_init (sb : Sidebar.t) : M unit :=
  exec modify (with_ctrl (fun _ => SimpleController_init (Sidebar.block_on_detect sb))) in
  exec modify (set_hosts []) in
  exec for_each (seq 1 (Sidebar.hosts_count sb)) create_host in
  modify (set_started false).

(** [st.session_state.ctrl.block_on_detect = block_on_detect]. *)
Definition sync_checkbox (sb : Sidebar.t) : M unit :=
  modify (with_ctrl (set_block_on_detect (Sidebar.block_on_detect sb))).

(** ** Simulation behavior *)

(** Initial learning step when the simulation first started. *)
Definition initial_learning : M unit :=
  let* st := gets started in
  if negb st then
    let* hs := gets hosts in
    exec for_each hs (fun h => exec receive_arp (fst h) (snd h) "initial ARP" in ret tt) in
    modify (set_started true)
  else
    ret tt.

(** The script from its top down to the definition of [one_event], the
    display panels left out; [has_ctrl] is ['ctrl' in st.session_state]. *)
Definition script_top (sb : Sidebar.t) (has_ctrl : bool) : M unit :=
  exec (if negb has_ctrl || Sidebar.reset sb then session_init sb else ret tt) in
  exec sync_checkbox sb in
  initial_learning.

(** The [else] branch of random mode. *)
Definition normal_arp : M unit :=
  let* hs := gets hosts in
  let* s := random_choice hs in
  exec receive_arp (fst s) (snd s) "normal ARP" in
  ret tt.

(** Helper to perform one event. *)
Definition one_event (sb : Sidebar.t) : M unit :=
  match Sidebar.mode sb with
  | Sidebar.basic =>
      let attacker_mac := "aa:aa:aa:aa:aa:aa" in
      (* pick a victim (second host if exists) *)
      let* hs := gets hosts in
      if (2 <=? length hs)%nat then
        let* victim := list_getitem hs 1 in
        let victim_ip := fst victim in
        exec receive_arp victim_ip attacker_mac "spoof attempt (basic)" in
        (* next event: attacker sends again *)
        exec receive_arp victim_ip attacker_mac "spoof attempt (basic #2)" in
        ret tt
      else
        ret tt
  | Sidebar.random =>
      (* random mode: either normal ARP or spoof *)
      let* r := random_random in
      if Qlt_le_dec r (Sidebar.spoof_chance sb) then
        let* hs := gets hosts in
        let* v := random_choice hs in
        let victim := fst v in
        let* b1 := random_randint 0 255 in
        let* b2 := random_randint 0 255 in
        let attacker_mac := "de:ad:be:ef:" +:+ fmt_02x b1 +:+ ":" +:+ fmt_02x b2 in
        exec receive_arp victim attacker_mac "random spoof" in
        ret tt
      else
        normal_arp
  end.

(** [n] calls of [one_event] in a row, stopping at the first exception. *)
Fixpoint events (sb : Sidebar.t) (n : nat) : M unit :=
  match n with
  | O => ret tt
  | S n' => exec one_event sb in events sb n'
  end.

End Simulator.

(** ** Topology renderer *)

(** An [nx.Graph]: nodes in insertion order with their attributes, and the
    undirected edges in insertion order. *)
Record Graph : Type := mkGraph {
  nodes : list (string * list (string * Z));
  edges : list (string * string)
}.

Definition has_node (G : Graph) (n : string) : bool :=
  bool_decide (n ∈ map fst (nodes G)).

Definition has_edge (G : Graph) (u v : string) : bool :=
  bool_decide ((u, v) ∈ edges G) || bool_decide ((v, u) ∈ edges G).

(** [G.add_node(n, **attrs)], for the nodes of this script (a node met again
    keeps its place). *)
Definition add_node (n : string) (attrs : list (string * Z)) (G : Graph) : Graph :=
  if has_node G n then G else mkGraph (nodes G ++ [(n, attrs)]) (edges G).

(** [G.add_edge(u, v)]: missing end points are added first. *)
Definition add_edge (u v : string) (G : Graph) : Graph :=
  let G1 := add_node v [] (add_node u [] G) in
  if has_edge G1 u v then G1 else mkGraph (nodes G1) (edges G1 ++ [(u, v)]).

Section Renderer.

(** The layout is the graph library's: [spring_layout G seed]. *)
Variable Layout : Type.
Variable spring_layout : Graph -> Z -> Layout.

Record Figure : Type := mkFigure {
  figsize : Z * Z;
  drawn : Graph;
  pos : Layout;
  with_labels : bool;
  node_size : Z;
  font_size : Z
}.

Definition draw_graph (arp_table : dict) (blocked : gset string) : M Figure :=
  let G := mkGraph [] [] in
  (* add controller *)
  let G := add_node "controller" [("bipartite", 0%Z)] G in
  let G :=
    fold_left (fun G item =>
                 let label := fst item +:+ String "010" (snd item) in
                 add_edge "controller" label (add_node label [] G))
              arp_table G in
  (* if there are hosts we didn't learn yet, show them as unknown *)
  let* hs := gets hosts in
  let G :=
    fold_left (fun G h =>
                 if bool_decide (fst h ∉ dict_keys arp_table) then
                   let label := fst h +:+ String "010" "(unknown)" in
                   add_edge "controller" label (add_node label [] G)
                 else G)
              hs G in
  let pos := spring_layout G 42 in
  ret (mkFigure (6, 5)%Z G pos true 900 8).

End Renderer.

(** ** Reading the event log and the generated addresses *)

Definition LEVELS : list string := ["DROP"; "ALERT"; "LEARN"; "MITIGATE"].

Definition is_digit (c : ascii) : bool :=
  (48 <=? nat_of_ascii c)%nat && (nat_of_ascii c <=? 57)%nat.

Definition digit_val (c : ascii) : nat := nat_of_ascii c - 48.

(** The character of the decimal digit [d]. *)
Definition digit (d : N) : ascii := ascii_of_N (48 + d).

(** Splits a line of the form [[HH:MM:SS] LEVEL: message] into its time
    stamp, level and message; [None] when the line has another form, the time
    is not a time of day or the level is not one of [LEVELS]. *)
Definition parse_entry (line : string) : option (string * string * string) :=
  match line with
  | String "[" (String h1 (String h2 (String ":" (String m1 (String m2 (String ":"
      (String s1 (String s2 (String "]" (String " " rest)))))))))) =>
      if forallb is_digit [h1; h2; m1; m2; s1; s2]
         && (10 * digit_val h1 + digit_val h2 <? 24)%nat
         && (10 * digit_val m1 + digit_val m2 <? 60)%nat
         && (10 * digit_val s1 + digit_val s2 <? 60)%nat
      then
        match index 0 ": " rest with
        | Some n =>
            let lvl := substring 0 n rest in
            if bool_decide (lvl ∈ LEVELS) then
              Some (substring 1 8 line, lvl,
                    substring (n + 2) (String.length rest - (n + 2)) rest)
            else None
        | None => None
        end
      else None
  | _ => None
  end.

Definition entry_level (line : string) : option string :=
  match parse_entry line with
  | Some (_, lvl, _) => Some lvl
  | None => None
  end.

Definition is_lower_hex (c : ascii) : bool :=
  is_digit c || ((97 <=? nat_of_ascii c)%nat && (nat_of_ascii c <=? 102)%nat).

(** A group of two lowercase hexadecimal digits. *)
Definition is_hex_group (g : string) : bool :=
  match g with
  | String a (String b "") => is_lower_hex a && is_lower_hex b
  | _ => false
  end.

(** [n] two-digit lowercase hexadecimal groups joined by colons. *)
Definition colon_hex (n : nat) (s : string) : Prop :=
  ∃ groups : list string,
    length groups = n ∧ Forall (fun g => is_hex_group g = true) groups ∧
    s = join ":" groups.

(** The value [random.randint(a, b)] makes of the raw draw [r]. *)
Definition randint_value (a b r : N) : N := (a + r mod (b - a + 1))%N.

(** The messages of the four kinds of entry. *)
Definition drop_msg (mac info : string) : string :=
  "Packet from blocked MAC " +:+ mac +:+ " dropped. (" +:+ info +:+ ")".

Definition alert_msg (ip old mac info : string) : string :=
  "ARP spoof detected: IP " +:+ ip +:+ " was " +:+ old +:+ ", now " +:+ mac
    +:+ ". (" +:+ info +:+ ")".

Definition learn_msg (ip mac info : string) : string :=
  "Learned " +:+ ip +:+ " -> " +:+ mac +:+ ". (" +:+ info +:+ ")".

Definition mitigate_msg (mac : string) : string :=
  "Blocking MAC " +:+ mac +:+ " (simulated drop flow).".

(** The world after one more wall-clock read and one more log line. *)
Definition logged (line : string) (w : World) : World :=
  mkWorld (set_logs (logs (ctrl w) ++ [line]) (ctrl w)) (hosts w) (started w)
          (S (clock_reads w)) (rng_draws w).

(** Every host of the roster is in the table under its own address. *)
Definition roster_learned (w : World) : Prop :=
  Forall (fun h => dict_get (arp_table (ctrl w)) (fst h) = Some (snd h)) (hosts w).

Section Observations.

Variable clock : nat -> N.
Variable rand : nat -> N.

(** The line [_log] writes at the [k]-th read of the clock. *)
Definition stamp (k : nat) (lvl msg : string) : string :=
  log_line (strftime_HMS (clock k)) lvl msg.

(** The lines written for a list of (level, message) pairs from the [k]-th
    read of the clock on, one read per line. *)
Fixpoint stamped (k : nat) (items : list (string * string)) : list string :=
  match items with
  | [] => []
  | (lvl, msg) :: items' => stamp k lvl msg :: stamped (S k) items'
  end.

(** The operations a session applies to its controller. *)
Inductive op : Type :=
  | OpReceive (src_ip src_mac pkt_info : string)
  | OpBlock (mac : string)
  | OpSync (sb : Sidebar.t)
  | OpInitialLearning
  | OpEvent (sb : Sidebar.t).

Definition run_op (o : op) : M unit :=
  match o with
  | OpReceive src_ip src_mac pkt_info =>
      exec receive_arp clock src_ip src_mac pkt_info in ret tt
  | OpBlock mac => exec block_mac clock mac in ret tt
  | OpSync sb => sync_checkbox sb
  | OpInitialLearning => initial_learning clock
  | OpEvent sb => one_event clock rand sb
  end.

(** A sequence of operations; one that raises does not stop the session, the
    next operation runs on the state the exception left. *)
Fixpoint run_ops (os : list op) (w : World) : World :=
  match os with
  | [] => w
  | o :: os' => run_ops os' (snd (run_op o w))
  end.

(** The roster the loop of [session_init] creates for the indices [idx],
    when the generator has made [k] draws before. *)
Fixpoint gen_hosts (k : nat) (idx : list nat) : list Host :=
  match idx with
  | [] => []
  | i :: idx' =>
      ("10.0.0." +:+ str i,
       "02:00:" +:+ fmt_02x (randint_value 0 255 (rand k))
         +:+ ":" +:+ fmt_02x (randint_value 0 255 (rand (1 + k)))
         +:+ ":" +:+ fmt_02x (randint_value 0 255 (rand (2 + k)))
         +:+ ":" +:+ fmt_02x (randint_value 0 255 (rand (3 + k))))
      :: gen_hosts (4 + k) idx'
  end.

(** The state a first load or a reset leaves once the initial learning step
    has run: the generated roster, a table that is this roster, nothing
    blocked, and one LEARN entry per host. *)
Definition learned_world (sb : Sidebar.t) (w0 : World) : World :=
  let roster := gen_hosts (rng_draws w0) (seq 1 (Sidebar.hosts_count sb)) in
  mkWorld
    (mkController roster ∅ (Sidebar.block_on_detect sb)
       (stamped (clock_reads w0)
          (map (fun h => ("LEARN", learn_msg (fst h) (snd h) "initial ARP")) roster)))
    roster true (Sidebar.hosts_count sb + clock_reads w0)
    (4 * Sidebar.hosts_count sb + rng_draws w0).

End Observations.

(** The attacker address of basic mode. *)
Definition basic_attacker_mac : string := "aa:aa:aa:aa:aa:aa".

(** [m] relates every state to the state it leaves, also when it raises. *)
Definition keeps {A} (R : World → World → Prop) (m : M A) : Prop :=
  ∀ w, R w (snd (m w)).

Definition blocked_grows (w w' : World) : Prop :=
  blocked_macs (ctrl w) ⊆ blocked_macs (ctrl w').

(** The roster is the same and every binding of the table is still there. *)
Definition roster_kept (w w' : World) : Prop :=
  hosts w' = hosts w ∧
  ∀ ip mac, dict_get (arp_table (ctrl w)) ip = Some mac →
            dict_get (arp_table (ctrl w')) ip = Some mac.

(** The log of [w'] is the log of [w] followed by one line per read of the
    clock made in between, each with one of the four levels. *)
Definition log_extends (clock : nat → N) (w w' : World) : Prop :=
  ∃ items : list (string * string),
    Forall (fun it => fst it ∈ LEVELS) items ∧
    logs (ctrl w') = logs (ctrl w) ++ stamped clock (clock_reads w) items ∧
    clock_reads w' = clock_reads w + length items.

(** The world after [n] more draws of the generator. *)
Definition after_draws (n : nat) (w : World) : World :=
  mkWorld (ctrl w) (hosts w) (started w) (clock_reads w) (n + rng_draws w).

(** The [n] groups [random_groups] makes of the draws [k], [k+1], ... *)
Definition groups_from (rand : nat → N) (k n : nat) : list string :=
  map (fun i => fmt_02x (randint_value 0 255 (rand (k + i)))) (seq 0 n).

(** A session that has not been set up: no hosts, no clock read, no draw. *)
Definition blank_world : World := mkWorld (SimpleController_init true) [] false 0 0.

(** The levels of the entries that [w'] has after those of [w]. *)
Definition new_levels (w w' : World) : list (option string) :=
  map entry_level (drop (length (logs (ctrl w))) (logs (ctrl w'))).

(** ** A sample session *)

(** A clock that starts at 12:34:56 and moves one second per read, and a
    generator that counts in steps of 37. *)
Definition sample_clock (n : nat) : N := 45296 + N.of_nat n.
Definition sample_rand (n : nat) : N := N.of_nat (37 * n + 11).

(** Basic mode, three hosts, auto-block on, Reset pressed. *)
Definition sample_sidebar : Sidebar.t :=
  Sidebar.mk Sidebar.basic 3 (15 # 100) (4 # 10) true false false true.

(** Random mode with the spoof chance at 0.0. *)
Definition quiet_sidebar : Sidebar.t :=
  Sidebar.mk Sidebar.random 3 0 (4 # 10) true false false false.

(** Random mode with the spoof chance at one half. *)
Definition noisy_sidebar : Sidebar.t :=
  Sidebar.mk Sidebar.random 3 (1 # 2) (4 # 10) true false false false.

(** The session after its first load and the initial learning step. *)
Definition sample_world : World :=
  snd (script_top sample_clock sample_rand sample_sidebar false blank_world).

(** The same session with auto-block switched off. *)
Definition lenient_world : World :=
  with_ctrl (set_block_on_detect false) sample_world.

(** The sample session after one basic-mode step. *)
Definition attacked_world : World :=
  snd (one_event sample_clock sample_rand sample_sidebar sample_world).

(** A session with one host only. *)
Definition lonely_world : World :=
  mkWorld (mkController [("10.0.0.1", "02:00:10:20:30:40")] ∅ true [])
          [("10.0.0.1", "02:00:10:20:30:40")] true 1 4.

(** What the sample session goes through after the attack. *)
Definition sample_ops : list op :=
  [OpEvent sample_sidebar;
   OpReceive "10.0.0.3" "02:00:33:58:7d:a2" "normal ARP";
   OpBlock "aa:aa:aa:aa:aa:aa";
   OpSync quiet_sidebar].

(** A stand-in for the layout of the graph library: every node at its rank. *)
Definition rank_layout (G : Graph) (seed : Z) : list (string * Z) :=
  imap (fun i n => (fst n, (seed + Z.of_nat i)%Z)) (nodes G).

(** [mac] is named as the new address by an ALERT entry of the log. *)
Definition alerted (clock : nat → N) (w : World) (mac : string) : Prop :=
  ∃ k ip old info, stamp clock k "ALERT" (alert_msg ip old mac info) ∈ logs (ctrl w).

(** Whether an operation is a direct call of [block_mac]; the script has
    none, it blocks through [receive_arp] only. *)
Definition is_block (o : op) : bool :=
  match o with
  | OpBlock _ => true
  | _ => false
  end.

(** ** Reading the figure *)

Definition node_names (G : Graph) : list string := map fst (nodes G).

(** What [draw_graph] does for one label: the node, then the edge from the
    controller. *)
Definition attach (label : string) (G : Graph) : Graph :=
  add_edge "controller" label (add_node label [] G).

(** The label of a pair of the table, and of a host not heard from yet. *)
Definition learned_label (item : string * string) : string :=
  fst item +:+ String "010" (snd item).

Definition unknown_label (h : Host) : string :=
  fst h +:+ String "010" "(unknown)".

(** The labels [draw_graph] goes through, in its order: the pairs of the
    table, then the hosts of the roster that the table does not have. *)
Definition graph_labels (table : dict) (hs : list Host) : list string :=
  map learned_label table ++
  map unknown_label (filter (fun h => fst h ∉ dict_keys table) hs).

(** The graph with the controller node and the given labels attached. *)
Definition star_graph (labels : list string) : Graph :=
  fold_left (fun G l => attach l G) labels
            (add_node "controller" [("bipartite", 0%Z)] (mkGraph [] [])).

(** The shape the figure keeps: a star around the controller. *)
Definition star_shape (G : Graph) : Prop :=
  "controller" ∈ node_names G ∧
  NoDup (node_names G) ∧
  NoDup (edges G) ∧
  (∀ u v, (u, v) ∈ edges G → u = "controller" ∧ v ≠ "controller" ∧ v ∈ node_names G) ∧
  (∀ n, n ∈ node_names G → n ≠ "controller" → ("controller", n) ∈ edges G).

Fixpoint has_char (c : ascii) (s : string) : bool :=
  match s with
  | EmptyString => false
  | String a s' => bool_decide (a = c) || has_char c s'
  end.

(** * Properties *)

(** ** Dictionaries *)

Lemma dict_get_set_eq (d : dict) k v : dict_get (dict_set d k v) k = Some v.
Proof.
  induction d as [|[k' v'] d IH]; simpl.
  - by rewrite decide_True.
  - destruct (decide (k' = k)) as [->|Hne]; simpl.
    + by rewrite decide_True.
    + by rewrite decide_False.
Qed.

Lemma dict_get_set_ne (d : dict) k k' v :
  k ≠ k' → dict_get (dict_set d k v) k' = dict_get d k'.
Proof.
  intros Hne. induction d as [|[k0 v0] d IH]; simpl.
  - by rewrite decide_False.
  - destruct (decide (k0 = k)) as [->|Hk]; simpl.
    + by rewrite !decide_False.
    + by rewrite IH.
Qed.

Lemma dict_set_same (d : dict) k v : dict_get d k = Some v → dict_set d k v = d.
Proof.
  induction d as [|[k0 v0] d IH]; simpl; [done|].
  destruct (decide (k0 = k)) as [->|Hk]; intros H.
  - by inversion H.
  - by rewrite IH.
Qed.

Lemma dict_set_fresh (d : dict) k v :
  dict_get d k = None → dict_set d k v = d ++ [(k, v)].
Proof.
  induction d as [|[k0 v0] d IH]; simpl; [done|].
  destruct (decide (k0 = k)); [done|]. intros H. by rewrite IH.
Qed.

Lemma dict_get_snoc (d : dict) k v k' :
  dict_get (d ++ [(k, v)]) k' =
  match dict_get d k' with
  | Some x => Some x
  | None => if decide (k = k') then Some v else None
  end.
Proof.
  induction d as [|[k0 v0] d IH]; simpl; [done|].
  by destruct (decide (k0 = k')).
Qed.

Lemma dict_get_None (d : dict) k : k ∉ dict_keys d → dict_get d k = None.
Proof.
  induction d as [|[k0 v0] d IH]; simpl; [done|].
  intros Hk. apply not_elem_of_cons in Hk as [Hne Hk].
  rewrite decide_False; [by apply IH | congruence].
Qed.

Lemma dict_get_NoDup (d : dict) ip mac :
  NoDup (dict_keys d) → (ip, mac) ∈ d → dict_get d ip = Some mac.
Proof.
  induction d as [|[k0 v0] d IH]; simpl; intros Hnd Hin.
  - by apply elem_of_nil in Hin.
  - apply NoDup_cons in Hnd as [Hk0 Hnd].
    apply elem_of_cons in Hin as [Heq|Hin].
    + inversion Heq; subst. by rewrite decide_True.
    + rewrite decide_False; [by apply IH|].
      intros ->. apply Hk0. apply list_elem_of_fmap. by exists (ip, mac).
Qed.

(** ** The controller, case by case *)

Section ControllerFacts.

Variable clock : nat -> N.

Lemma _log_run lvl msg w :
  _log clock lvl msg w =
  (Ok (stamp clock (clock_reads w) lvl msg),
   logged (stamp clock (clock_reads w) lvl msg) w).
Proof. reflexivity. Qed.

Lemma block_mac_blocked mac w :
  mac ∈ blocked_macs (ctrl w) → block_mac clock mac w = (Ok None, w).
Proof.
  intros Hin. unfold block_mac, bind, gets. simpl.
  by rewrite decide_False; [|intros Hn; apply Hn].
Qed.

Lemma block_mac_fresh mac w :
  mac ∉ blocked_macs (ctrl w) →
  let line := stamp clock (clock_reads w) "MITIGATE" (mitigate_msg mac) in
  block_mac clock mac w =
  (Ok (Some line),
   logged line (with_ctrl (set_blocked_macs (blocked_macs (ctrl w) ∪ {[mac]})) w)).
Proof.
  intros Hin. unfold block_mac, bind, gets. simpl.
  by rewrite decide_True.
Qed.

Lemma receive_arp_drop ip mac info w :
  mac ∈ blocked_macs (ctrl w) →
  let line := stamp clock (clock_reads w) "DROP" (drop_msg mac info) in
  receive_arp clock ip mac info w = (Ok line, logged line w).
Proof.
  intros Hin. unfold receive_arp, bind, gets. simpl.
  by rewrite decide_True.
Qed.

Lemma receive_arp_alert ip old mac info w :
  mac ∉ blocked_macs (ctrl w) →
  dict_get (arp_table (ctrl w)) ip = Some old → old ≠ mac →
  let alert := stamp clock (clock_reads w) "ALERT" (alert_msg ip old mac info) in
  receive_arp clock ip mac info w =
  (Ok alert,
   if block_on_detect (ctrl w)
   then logged (stamp clock (S (clock_reads w)) "MITIGATE" (mitigate_msg mac))
          (with_ctrl (fun c => set_blocked_macs (blocked_macs c ∪ {[mac]}) c)
             (logged alert w))
   else logged alert w).
Proof.
  intros Hnb Hget Hne. unfold receive_arp, bind at 1, gets at 1. simpl.
  rewrite decide_False by done.
  unfold bind at 1, gets at 1. simpl. rewrite Hget, bool_decide_true by done.
  unfold dict_getitem. rewrite Hget.
  unfold bind at 1, ret at 1. unfold bind at 1. rewrite _log_run.
  unfold bind at 1, gets at 1. simpl.
  destruct (block_on_detect (ctrl w)) eqn:Hb.
  - unfold bind at 1. unfold bind at 1. rewrite block_mac_fresh by done. simpl.
    reflexivity.
  - reflexivity.
Qed.

Lemma receive_arp_learn ip mac info w :
  mac ∉ blocked_macs (ctrl w) →
  dict_get (arp_table (ctrl w)) ip = None ∨ dict_get (arp_table (ctrl w)) ip = Some mac →
  let line := stamp clock (clock_reads w) "LEARN" (learn_msg ip mac info) in
  receive_arp clock ip mac info w =
  (Ok line,
   logged line (with_ctrl (fun c => set_arp_table (dict_set (arp_table c) ip mac) c) w)).
Proof.
  intros Hnb Hget. unfold receive_arp, bind at 1, gets at 1. simpl.
  rewrite decide_False by done.
  unfold bind at 1, gets at 1. simpl.
  assert (match dict_get (arp_table (ctrl w)) ip with
          | Some cur => bool_decide (cur ≠ mac)
          | None => false
          end = false) as ->.
  { destruct Hget as [->| ->]; [done|]. rewrite bool_decide_false; [done|]. intros H. by apply H. }
  reflexivity.
Qed.

End ControllerFacts.

(** ** Formats *)

Lemma N_below (P : N → bool) (k : nat) :
  forallb P (map N.of_nat (seq 0 k)) = true → ∀ n, (n < N.of_nat k)%N → P n = true.
Proof.
  rewrite forallb_forall. intros H n Hn. apply H.
  apply in_map_iff. exists (N.to_nat n). split; [lia|].
  apply in_seq. lia.
Qed.

Lemma fmt_02d_digits n :
  (n < 100)%N → fmt_02d n = String (digit (n / 10)) (String (digit (n mod 10)) "").
Proof.
  intros Hn.
  pose proof (N_below
    (fun n => String.eqb (fmt_02d n) (String (digit (n / 10)) (String (digit (n mod 10)) "")))
    100 eq_refl n Hn) as H.
  by apply String.eqb_eq in H.
Qed.

Lemma digit_is_digit d : (d < 10)%N → is_digit (digit d) = true.
Proof. intros Hd. exact (N_below (fun d => is_digit (digit d)) 10 eq_refl d Hd). Qed.

Lemma digit_val_digit d : (d < 10)%N → digit_val (digit d) = N.to_nat d.
Proof.
  intros Hd.
  pose proof (N_below (fun d => digit_val (digit d) =? N.to_nat d)%nat 10 eq_refl d Hd) as H.
  by apply Nat.eqb_eq in H.
Qed.

Lemma two_digits_value n :
  (n < 100)%N →
  (10 * digit_val (digit (n / 10)) + digit_val (digit (n mod 10)))%nat = N.to_nat n.
Proof.
  intros Hn.
  assert (n / 10 < 10)%N by (apply N.Div0.div_lt_upper_bound; lia).
  assert (n mod 10 < 10)%N by (apply N.mod_lt; lia).
  rewrite !digit_val_digit by done.
  pose proof (N.div_mod n 10). lia.
Qed.

Lemma substring_all s : substring 0 (String.length s) s = s.
Proof. induction s; simpl; [done|]. by rewrite IHs. Qed.

Lemma level_DROP : "DROP" ∈ LEVELS.
Proof. unfold LEVELS. set_solver. Qed.

Lemma level_ALERT : "ALERT" ∈ LEVELS.
Proof. unfold LEVELS. set_solver. Qed.

Lemma level_LEARN : "LEARN" ∈ LEVELS.
Proof. unfold LEVELS. set_solver. Qed.

Lemma level_MITIGATE : "MITIGATE" ∈ LEVELS.
Proof. unfold LEVELS. set_solver. Qed.

Create HintDb levels.
#[export] Hint Resolve level_DROP level_ALERT level_LEARN level_MITIGATE : levels.

Lemma parse_level_message lvl msg :
  lvl ∈ LEVELS →
  let rest := lvl +:+ ": " +:+ msg in
  ∃ n, index 0 ": " rest = Some n ∧ substring 0 n rest = lvl ∧
       substring (n + 2) (String.length rest - (n + 2)) rest = msg.
Proof.
  intros Hl. unfold LEVELS in Hl.
  repeat (apply elem_of_cons in Hl as [->|Hl]);
    [| | | |by apply elem_of_nil in Hl].
  1: exists 4%nat. 2, 3: exists 5%nat. 4: exists 8%nat.
  all: cbv [String.append]; cbn; (split; [by destruct msg|]);
    (split; [done|]); by rewrite Nat.sub_0_r, substring_all.
Qed.

Lemma parse_entry_stamp clock k lvl msg :
  lvl ∈ LEVELS →
  parse_entry (stamp clock k lvl msg) = Some (strftime_HMS (clock k), lvl, msg).
Proof.
  intros Hl. unfold stamp, log_line, strftime_HMS.
  set (h := ((clock k / 3600) mod 24)%N).
  set (m := ((clock k / 60) mod 60)%N).
  set (s := (clock k mod 60)%N).
  assert (h < 24)%N as Hh by (apply N.mod_lt; lia).
  assert (m < 60)%N as Hm by (apply N.mod_lt; lia).
  assert (s < 60)%N as Hs by (apply N.mod_lt; lia).
  rewrite !fmt_02d_digits by lia.
  destruct (parse_level_message lvl msg Hl) as (n & Hidx & Hlvl & Hmsg).
  set (rest := lvl +:+ ": " +:+ msg) in *.
  cbv [String.append]. unfold parse_entry.
  cbn [forallb].
  assert (h / 10 < 10)%N by (apply N.Div0.div_lt_upper_bound; lia).
  assert (m / 10 < 10)%N by (apply N.Div0.div_lt_upper_bound; lia).
  assert (s / 10 < 10)%N by (apply N.Div0.div_lt_upper_bound; lia).
  assert (h mod 10 < 10)%N by (apply N.mod_lt; lia).
  assert (m mod 10 < 10)%N by (apply N.mod_lt; lia).
  assert (s mod 10 < 10)%N by (apply N.mod_lt; lia).
  rewrite !digit_is_digit by done.
  rewrite !two_digits_value by lia.
  assert ((N.to_nat h <? 24)%nat = true) as -> by (apply Nat.ltb_lt; lia).
  assert ((N.to_nat m <? 60)%nat = true) as -> by (apply Nat.ltb_lt; lia).
  assert ((N.to_nat s <? 60)%nat = true) as -> by (apply Nat.ltb_lt; lia).
  cbn [andb]. rewrite Hidx, Hlvl, Hmsg, bool_decide_true by done.
  reflexivity.
Qed.

Lemma entry_level_stamp clock k lvl msg :
  lvl ∈ LEVELS → entry_level (stamp clock k lvl msg) = Some lvl.
Proof. intros Hl. unfold entry_level. by rewrite parse_entry_stamp. Qed.

Lemma stamped_app clock k items1 items2 :
  stamped clock k (items1 ++ items2) =
  stamped clock k items1 ++ stamped clock (k + length items1) items2.
Proof.
  revert k. induction items1 as [|[lvl msg] items1 IH]; intros k; simpl.
  - by rewrite Nat.add_0_r.
  - rewrite IH. by rewrite Nat.add_succ_r.
Qed.

Lemma length_stamped clock k items : length (stamped clock k items) = length items.
Proof.
  revert k. induction items as [|[lvl msg] items IH]; intros k; simpl; [done|].
  by rewrite IH.
Qed.

Lemma stamped_levels clock k items :
  Forall (fun it => fst it ∈ LEVELS) items →
  map entry_level (stamped clock k items) = map (fun it => Some (fst it)) items.
Proof.
  intros H. revert k. induction H as [|[lvl msg] items Hl _ IH]; intros k; simpl; [done|].
  by rewrite entry_level_stamp, IH.
Qed.

(** ** The controller's operations *)

Section ControllerClaims.

Variable clock : nat -> N.
Variable rand : nat -> N.

(** C1. In a state whose table maps [A] to [M1], with neither [M1] nor [M2]
    blocked and [M2] different from [M1], the announcement [(A, M2)] returns
    an ALERT entry, that entry is appended to the log (followed by the
    MITIGATE entry when auto-block is on), and the table is unchanged: it
    still maps [A] to [M1] and not to [M2]. *)
Theorem conflict_preserves_mapping w A M1 M2 info :
  dict_get (arp_table (ctrl w)) A = Some M1 →
  M1 ∉ blocked_macs (ctrl w) →
  M2 ≠ M1 →
  M2 ∉ blocked_macs (ctrl w) →
  let alert := stamp clock (clock_reads w) "ALERT" (alert_msg A M1 M2 info) in
  let mitigate := stamp clock (S (clock_reads w)) "MITIGATE" (mitigate_msg M2) in
  let w' := snd (receive_arp clock A M2 info w) in
  fst (receive_arp clock A M2 info w) = Ok alert ∧
  entry_level alert = Some "ALERT" ∧
  logs (ctrl w') =
    logs (ctrl w) ++ alert :: (if block_on_detect (ctrl w) then [mitigate] else []) ∧
  arp_table (ctrl w') = arp_table (ctrl w) ∧
  dict_get (arp_table (ctrl w')) A = Some M1 ∧
  dict_get (arp_table (ctrl w')) A ≠ Some M2.
Proof.
  intros Hget _ Hne Hnb. cbv zeta.
  rewrite (receive_arp_alert clock A M1 M2 info w Hnb Hget) by congruence.
  assert (Some M1 ≠ Some M2) by congruence.
  split; [done|]. split; [apply entry_level_stamp; auto with levels|].
  destruct (block_on_detect (ctrl w)); simpl.
  - rewrite <- app_assoc. simpl. by rewrite Hget.
  - by rewrite Hget.
Qed.

(** C5. Blocking an address that is already blocked returns no entry and
    leaves the whole state as it was (same blocked set, same size, same
    log); and after any call of [block_mac] on [M], a second call on [M]
    is such a no-op, so blocking twice is blocking once. *)
Theorem block_mac_idempotent w M :
  (M ∈ blocked_macs (ctrl w) →
   let w' := snd (block_mac clock M w) in
   fst (block_mac clock M w) = Ok None ∧
   blocked_macs (ctrl w') = blocked_macs (ctrl w) ∧
   size (blocked_macs (ctrl w')) = size (blocked_macs (ctrl w)) ∧
   logs (ctrl w') = logs (ctrl w) ∧
   w' = w) ∧
  (let w1 := snd (block_mac clock M w) in
   block_mac clock M w1 = (Ok None, w1)).
Proof.
  split.
  - intros Hin. by rewrite block_mac_blocked.
  - cbv zeta. apply block_mac_blocked.
    destruct (decide (M ∈ blocked_macs (ctrl w))) as [Hin|Hnin].
    + by rewrite block_mac_blocked.
    + rewrite block_mac_fresh by done. simpl. set_solver.
Qed.

(** C6. With fewer than two hosts in the roster the basic-mode step returns
    normally and leaves the whole state unchanged: log, table, blocked set
    and everything else. *)
Theorem basic_step_needs_two_hosts sb w :
  Sidebar.mode sb = Sidebar.basic →
  length (hosts w) < 2 →
  one_event clock rand sb w = (Ok tt, w).
Proof.
  intros Hmode Hlen. unfold one_event. rewrite Hmode.
  unfold bind at 1, gets at 1.
  destruct (hosts w) as [|h1 [|h2 hs]]; simpl in Hlen |- *; [done|done|lia].
Qed.

(** C10. With auto-block off, a table that maps [A] to [M1], and [M2]
    different from [M1] and not blocked: every one of a series of
    announcements [(A, M2)] appends one ALERT entry of its own, so the log
    grows by exactly one entry per call, however many calls there are, and
    the blocked set and the table stay as they were. *)
Theorem alerts_not_deduplicated w A M1 M2 (infos : list string) :
  block_on_detect (ctrl w) = false →
  dict_get (arp_table (ctrl w)) A = Some M1 →
  M2 ≠ M1 →
  M2 ∉ blocked_macs (ctrl w) →
  let calls := for_each infos (fun info => exec receive_arp clock A M2 info in ret tt) in
  let w' := snd (calls w) in
  let new := stamped clock (clock_reads w)
               (map (fun info => ("ALERT", alert_msg A M1 M2 info)) infos) in
  fst (calls w) = Ok tt ∧
  logs (ctrl w') = logs (ctrl w) ++ new ∧
  map entry_level new = map (fun _ => Some "ALERT") infos ∧
  length (logs (ctrl w')) = length (logs (ctrl w)) + length infos ∧
  blocked_macs (ctrl w') = blocked_macs (ctrl w) ∧
  arp_table (ctrl w') = arp_table (ctrl w).
Proof.
  intros Hauto Hget Hne Hnb. cbv zeta.
  assert (Hlv : map entry_level
                  (stamped clock (clock_reads w)
                     (map (fun info => ("ALERT", alert_msg A M1 M2 info)) infos)) =
                map (fun _ => Some "ALERT") infos).
  { rewrite stamped_levels.
    - by rewrite map_map.
    - apply Forall_forall. intros it Hit. apply list_elem_of_fmap in Hit as (i & -> & _).
      simpl. set_solver. }
  revert w Hauto Hget Hnb Hlv.
  induction infos as [|info infos IH]; intros w Hauto Hget Hnb Hlv.
  - simpl. rewrite app_nil_r. repeat split; try done; lia.
  - set (w1 := logged (stamp clock (clock_reads w) "ALERT" (alert_msg A M1 M2 info)) w).
    assert (Hstep :
      for_each (info :: infos) (fun info => exec receive_arp clock A M2 info in ret tt) w =
      for_each infos (fun info => exec receive_arp clock A M2 info in ret tt) w1).
    { cbn [for_each]. unfold bind at 1. unfold bind at 1.
      rewrite (receive_arp_alert clock A M1 M2 info w Hnb Hget) by congruence.
      by rewrite Hauto. }
    rewrite Hstep. cbn [map stamped length].
    destruct (IH w1) as (Hr & Hlog & _ & Hlen & Hb & Ht); try done.
    { cbn [map] in Hlv. by inversion Hlv. }
    rewrite Hr, Hlen, Hlog, Hb, Ht. simpl. rewrite <- app_assoc, length_app. simpl.
    repeat split; try done; lia.
Qed.

End ControllerClaims.

(** ** Relations kept by every operation *)

Section Keeps.

Variable clock : nat -> N.
Variable rand : nat -> N.
Variable R : World → World → Prop.

Hypothesis R_refl : ∀ w, R w w.
Hypothesis R_trans : ∀ w1 w2 w3, R w1 w2 → R w2 w3 → R w1 w3.
Hypothesis R_log : ∀ lvl msg, lvl ∈ LEVELS → keeps R (_log clock lvl msg).
Hypothesis R_draw : keeps R (next_draw rand).
Hypothesis R_learn :
  ∀ ip mac w,
    dict_get (arp_table (ctrl w)) ip = None ∨ dict_get (arp_table (ctrl w)) ip = Some mac →
    R w (with_ctrl (fun c => set_arp_table (dict_set (arp_table c) ip mac) c) w).
Hypothesis R_block :
  ∀ mac, keeps R (modify (with_ctrl (fun c => set_blocked_macs (blocked_macs c ∪ {[mac]}) c))).
Hypothesis R_auto : ∀ b, keeps R (modify (with_ctrl (set_block_on_detect b))).
Hypothesis R_started : ∀ b, keeps R (modify (set_started b)).

Lemma keeps_ret {A} (a : A) : keeps R (ret a).
Proof. intros w. apply R_refl. Qed.

Lemma keeps_raise {A} e : keeps R (@raise A e).
Proof. intros w. apply R_refl. Qed.

Lemma keeps_gets {A} (f : World → A) : keeps R (gets f).
Proof. intros w. apply R_refl. Qed.

Lemma keeps_bind {A B} (m : M A) (k : A → M B) :
  keeps R m → (∀ a, keeps R (k a)) → keeps R (bind m k).
Proof.
  intros Hm Hk w. unfold bind. specialize (Hm w).
  destruct (m w) as [[a|e] w1]; simpl in *; [|done].
  eapply R_trans; [exact Hm|apply Hk].
Qed.

Lemma keeps_for_each {A} (xs : list A) (body : A → M unit) :
  (∀ x, keeps R (body x)) → keeps R (for_each xs body).
Proof.
  intros Hb. induction xs as [|x xs IH]; simpl.
  - apply keeps_ret.
  - apply keeps_bind; [apply Hb|]. intros _. apply IH.
Qed.

Lemma keeps_dict_getitem d k : keeps R (dict_getitem d k).
Proof. unfold dict_getitem. destruct (dict_get d k); [apply keeps_ret|apply keeps_raise]. Qed.

Lemma keeps_list_getitem {A} (l : list A) i : keeps R (list_getitem l i).
Proof. unfold list_getitem. destruct (l !! i); [apply keeps_ret|apply keeps_raise]. Qed.

Lemma keeps_random_random : keeps R (random_random rand).
Proof. apply keeps_bind; [apply R_draw|]. intros r. apply keeps_ret. Qed.

Lemma keeps_random_randint a b : keeps R (random_randint rand a b).
Proof. apply keeps_bind; [apply R_draw|]. intros r. apply keeps_ret. Qed.

Lemma keeps_random_choice {A} (l : list A) : keeps R (random_choice rand l).
Proof.
  destruct l as [|x l]; simpl; [apply keeps_raise|].
  apply keeps_bind; [apply R_draw|]. intros r. apply keeps_ret.
Qed.

Lemma keeps_block_mac mac : keeps R (block_mac clock mac).
Proof.
  apply keeps_bind; [apply keeps_gets|]. intros blocked.
  destruct (decide (mac ∉ blocked)); [|apply keeps_ret].
  apply keeps_bind; [apply R_block|]. intros _.
  apply keeps_bind; [apply R_log; auto with levels|]. intros line. apply keeps_ret.
Qed.

Lemma keeps_receive_arp ip mac info : keeps R (receive_arp clock ip mac info).
Proof.
  intros w.
  destruct (decide (mac ∈ blocked_macs (ctrl w))) as [Hb|Hb].
  { rewrite receive_arp_drop by done.
    exact (R_log "DROP" (drop_msg mac info) level_DROP w). }
  assert (Hcase : (∃ old, dict_get (arp_table (ctrl w)) ip = Some old ∧ old ≠ mac) ∨
                  (dict_get (arp_table (ctrl w)) ip = None ∨
                   dict_get (arp_table (ctrl w)) ip = Some mac)).
  { destruct (dict_get (arp_table (ctrl w)) ip) as [old|]; [|by right; left].
    destruct (decide (old = mac)) as [->|Hne]; [by right; right|].
    left. by exists old. }
  destruct Hcase as [(old & Hget & Hne)|Hget].
  - rewrite (receive_arp_alert clock ip old mac info w Hb Hget Hne). cbn [snd].
    set (alert := stamp clock (clock_reads w) "ALERT" (alert_msg ip old mac info)).
    assert (Ha : R w (logged alert w))
      by exact (R_log "ALERT" (alert_msg ip old mac info) level_ALERT w).
    destruct (block_on_detect (ctrl w)); [|exact Ha].
    apply (R_trans _ _ _ Ha).
    eapply R_trans; [exact (R_block mac (logged alert w))|].
    exact (R_log "MITIGATE" (mitigate_msg mac) level_MITIGATE _).
  - rewrite (receive_arp_learn clock ip mac info w Hb Hget). cbn [snd].
    eapply R_trans; [exact (R_learn ip mac w Hget)|].
    exact (R_log "LEARN" (learn_msg ip mac info) level_LEARN _).
Qed.

Lemma keeps_initial_learning : keeps R (initial_learning clock).
Proof.
  apply keeps_bind; [apply keeps_gets|]. intros st.
  destruct (negb st); [|apply keeps_ret].
  apply keeps_bind; [apply keeps_gets|]. intros hs.
  apply keeps_bind; [|intros _; apply R_started].
  apply keeps_for_each. intros h.
  apply keeps_bind; [apply keeps_receive_arp|]. intros _. apply keeps_ret.
Qed.

Lemma keeps_one_event sb : keeps R (one_event clock rand sb).
Proof.
  unfold one_event. destruct (Sidebar.mode sb).
  - cbv zeta. apply keeps_bind; [apply keeps_gets|]. intros hs.
    destruct (2 <=? length hs)%nat; [|apply keeps_ret].
    apply keeps_bind; [apply keeps_list_getitem|]. intros victim.
    apply keeps_bind; [apply keeps_receive_arp|]. intros _.
    apply keeps_bind; [apply keeps_receive_arp|]. intros _. apply keeps_ret.
  - apply keeps_bind; [apply keeps_random_random|]. intros r.
    destruct (Qlt_le_dec r (Sidebar.spoof_chance sb)).
    + apply keeps_bind; [apply keeps_gets|]. intros hs.
      apply keeps_bind; [apply keeps_random_choice|]. intros v. cbv zeta.
      apply keeps_bind; [apply keeps_random_randint|]. intros b1.
      apply keeps_bind; [apply keeps_random_randint|]. intros b2.
      apply keeps_bind; [apply keeps_receive_arp|]. intros _. apply keeps_ret.
    + apply keeps_bind; [apply keeps_gets|]. intros hs.
      apply keeps_bind; [apply keeps_random_choice|]. intros v.
      apply keeps_bind; [apply keeps_receive_arp|]. intros _. apply keeps_ret.
Qed.

Lemma keeps_run_op o : keeps R (run_op clock rand o).
Proof.
  destruct o; simpl.
  - apply keeps_bind; [apply keeps_receive_arp|]. intros _. apply keeps_ret.
  - apply keeps_bind; [apply keeps_block_mac|]. intros _. apply keeps_ret.
  - apply R_auto.
  - apply keeps_initial_learning.
  - apply keeps_one_event.
Qed.

Lemma keeps_run_ops os w : R w (run_ops clock rand os w).
Proof.
  revert w. induction os as [|o os IH]; intros w; simpl; [apply R_refl|].
  eapply R_trans; [apply keeps_run_op|apply IH].
Qed.

End Keeps.

Section SessionInvariants.

Variable clock : nat -> N.
Variable rand : nat -> N.

(** The blocked set only grows. *)
Lemma run_ops_blocked_grows os w : blocked_grows w (run_ops clock rand os w).
Proof.
  apply keeps_run_ops; unfold keeps, blocked_grows; simpl; intros; set_solver.
Qed.

(** No operation changes the roster or a binding the table already has. *)
Lemma run_ops_roster_kept os w : roster_kept w (run_ops clock rand os w).
Proof.
  apply keeps_run_ops; unfold keeps, roster_kept.
  - by split.
  - intros w1 w2 w3 [Hh1 Ht1] [Hh2 Ht2]. split; [congruence|]. intros ip mac H.
    by apply Ht2, Ht1.
  - by split.
  - by split.
  - intros ip mac w0 Hget. split; [done|]. simpl. intros ip' mac' H.
    destruct (decide (ip = ip')) as [<-|Hne].
    + destruct Hget as [Hget|Hget]; [congruence|].
      rewrite dict_get_set_eq. congruence.
    + by rewrite dict_get_set_ne.
  - by split.
  - by split.
  - by split.
Qed.

Lemma roster_learned_kept w w' : roster_kept w w' → roster_learned w → roster_learned w'.
Proof.
  intros [Hh Ht]. unfold roster_learned. rewrite Hh.
  intros H. eapply Forall_impl; [exact H|]. intros h. apply Ht.
Qed.

Lemma log_extends_refl w : log_extends clock w w.
Proof. exists []. simpl. rewrite app_nil_r. split; [constructor|]. split; [done|lia]. Qed.

Lemma log_extends_trans w1 w2 w3 :
  log_extends clock w1 w2 → log_extends clock w2 w3 → log_extends clock w1 w3.
Proof.
  intros (i1 & Hl1 & Hlog1 & Hk1) (i2 & Hl2 & Hlog2 & Hk2).
  exists (i1 ++ i2). split; [by apply Forall_app|].
  rewrite Hlog2, Hlog1, Hk2, Hk1, stamped_app, length_app, <- app_assoc.
  split; [done|lia].
Qed.

Lemma log_extends_same w w' :
  logs (ctrl w') = logs (ctrl w) → clock_reads w' = clock_reads w →
  log_extends clock w w'.
Proof.
  intros Hl Hk. exists []. simpl. rewrite app_nil_r.
  split; [constructor|]. split; [done|lia].
Qed.

Lemma log_extends_log lvl msg : lvl ∈ LEVELS → keeps (log_extends clock) (_log clock lvl msg).
Proof.
  intros Hl w. rewrite _log_run. simpl. exists [(lvl, msg)]. simpl.
  split; [constructor; [done|constructor]|]. split; [done|lia].
Qed.

(** Every operation only appends well-stamped lines to the log. *)
Lemma run_op_log_extends o : keeps (log_extends clock) (run_op clock rand o).
Proof.
  apply keeps_run_op.
  1: apply log_extends_refl.
  1: apply log_extends_trans.
  1: apply log_extends_log.
  all: intros; (try intros w); by apply log_extends_same.
Qed.

(** C2. Once [M] is in the blocked set it stays there through every sequence
    of operations, and then every announcement from [M], for any network
    address and any label, returns and appends exactly one DROP entry (so no
    LEARN and no ALERT) and changes neither the table nor the blocked set. *)
Theorem blocked_mac_always_dropped w M (os : list op) ip info :
  M ∈ blocked_macs (ctrl w) →
  let w1 := run_ops clock rand os w in
  let line := stamp clock (clock_reads w1) "DROP" (drop_msg M info) in
  let w2 := snd (receive_arp clock ip M info w1) in
  M ∈ blocked_macs (ctrl w1) ∧
  fst (receive_arp clock ip M info w1) = Ok line ∧
  logs (ctrl w2) = logs (ctrl w1) ++ [line] ∧
  entry_level line = Some "DROP" ∧
  entry_level line ≠ Some "LEARN" ∧
  entry_level line ≠ Some "ALERT" ∧
  arp_table (ctrl w2) = arp_table (ctrl w1) ∧
  blocked_macs (ctrl w2) = blocked_macs (ctrl w1).
Proof.
  intros Hin. cbv zeta.
  assert (Hin1 : M ∈ blocked_macs (ctrl (run_ops clock rand os w))).
  { by apply (run_ops_blocked_grows os w). }
  rewrite (receive_arp_drop clock ip M info _ Hin1). simpl.
  rewrite entry_level_stamp by auto with levels.
  repeat split; done.
Qed.

(** C8. Whatever operation runs, the log afterwards is the log before
    followed by new lines, one per read of the wall clock, each of the form
    [[HH:MM:SS] LEVEL: message] with the time of that read as a 24-hour time
    of day and LEVEL one of DROP, ALERT, LEARN and MITIGATE. *)
Theorem log_line_format (o : op) w :
  let w' := snd (run_op clock rand o w) in
  ∃ items : list (string * string),
    logs (ctrl w') = logs (ctrl w) ++ stamped clock (clock_reads w) items ∧
    clock_reads w' = clock_reads w + length items ∧
    Forall (fun it => fst it ∈ LEVELS) items ∧
    ∀ i lvl msg, items !! i = Some (lvl, msg) →
      let line := stamped clock (clock_reads w) items !!! i in
      line = "[" +:+ strftime_HMS (clock (clock_reads w + i)) +:+ "] " +:+ lvl
               +:+ ": " +:+ msg ∧
      parse_entry line = Some (strftime_HMS (clock (clock_reads w + i)), lvl, msg).
Proof.
  cbv zeta. destruct (run_op_log_extends o w) as (items & Hl & Hlog & Hk).
  exists items. repeat split; try done.
  - clear Hlog Hk. revert i H. generalize (clock_reads w) as k.
    induction items as [|[l0 m0] items IH]; intros k i Hi; [done|].
    destruct i as [|i]; simpl in *.
    + inversion Hi; subst. by rewrite Nat.add_0_r.
    + rewrite Nat.add_succ_r. apply (IH (Forall_inv_tail Hl) (S k) i Hi).
  - clear Hlog Hk. revert i H. generalize (clock_reads w) as k.
    induction items as [|[l0 m0] items IH]; intros k i Hi; [done|].
    destruct i as [|i]; simpl in *.
    + inversion Hi; subst. rewrite Nat.add_0_r. apply parse_entry_stamp.
      by apply Forall_inv in Hl.
    + rewrite Nat.add_succ_r. apply (IH (Forall_inv_tail Hl) (S k) i Hi).
Qed.

End SessionInvariants.

(** ** The identity generator *)

Lemma string_app_assoc (s1 s2 s3 : string) : (s1 +:+ s2) +:+ s3 = s1 +:+ s2 +:+ s3.
Proof.
  induction s1 as [|c s1 IH]; [done|].
  change (String c ((s1 +:+ s2) +:+ s3) = String c (s1 +:+ s2 +:+ s3)). by rewrite IH.
Qed.

Lemma string_length_app (s1 s2 : string) :
  String.length (s1 +:+ s2) = String.length s1 + String.length s2.
Proof.
  induction s1 as [|c s1 IH]; [done|].
  change (S (String.length (s1 +:+ s2)) = S (String.length s1) + String.length s2).
  by rewrite IH.
Qed.

Lemma randint_byte r : (randint_value 0 255 r < 256)%N.
Proof. unfold randint_value. simpl. apply N.mod_lt. lia. Qed.

Lemma fmt_02x_group v : (v < 256)%N → is_hex_group (fmt_02x v) = true.
Proof. intros Hv. exact (N_below (fun v => is_hex_group (fmt_02x v)) 256 eq_refl v Hv). Qed.

Lemma hex_group_length g : is_hex_group g = true → String.length g = 2.
Proof. destruct g as [|a [|b [|c g]]]; simpl; done. Qed.

Lemma join_cons sep g (gs : list string) :
  gs ≠ [] → join sep (g :: gs) = g +:+ sep +:+ join sep gs.
Proof. destruct gs; [done|]. reflexivity. Qed.

Lemma join_app sep (gs1 gs2 : list string) :
  gs1 ≠ [] → gs2 ≠ [] →
  join sep (gs1 ++ gs2) = join sep gs1 +:+ sep +:+ join sep gs2.
Proof.
  intros H1 H2. induction gs1 as [|g gs1 IH]; [done|].
  destruct gs1 as [|g' gs1].
  - simpl app. by rewrite join_cons.
  - rewrite <- app_comm_cons. rewrite !join_cons by done.
    rewrite IH by done. by rewrite !string_app_assoc.
Qed.

Lemma colon_hex_length n s : colon_hex (S n) s → String.length s = 3 * n + 2.
Proof.
  intros (gs & Hlen & Hgs & ->). revert n Hlen.
  induction Hgs as [|g gs Hg Hgs IH]; intros n Hlen; [done|].
  destruct gs as [|g' gs].
  - simpl in Hlen. assert (n = 0) as -> by lia. simpl. by apply hex_group_length.
  - destruct n as [|n]; [simpl in Hlen; lia|].
    rewrite join_cons by done. rewrite !string_length_app.
    rewrite (IH n) by (simpl in *; lia).
    rewrite (hex_group_length g Hg). simpl. lia.
Qed.

Section IdentityGenerator.

Variable rand : nat -> N.

Lemma random_groups_run n w :
  random_groups rand n w = (Ok (groups_from rand (rng_draws w) n), after_draws n w).
Proof.
  revert w. induction n as [|n IH]; intros w.
  - by destruct w.
  - cbn [random_groups]. unfold bind at 1. unfold random_randint at 1.
    unfold bind at 1. unfold next_draw at 1, ret at 1. unfold bind at 1.
    rewrite IH. unfold ret. unfold groups_from. cbn [seq map rng_draws after_draws].
    rewrite <- seq_shift, map_map, Nat.add_0_r.
    f_equal; [|unfold after_draws; simpl; f_equal; lia].
    do 2 f_equal. apply map_ext. intros i. do 3 f_equal. lia.
Qed.

Lemma groups_from_hex k n :
  Forall (fun g => is_hex_group g = true) (groups_from rand k n).
Proof.
  unfold groups_from. apply Forall_forall. intros g Hg.
  apply list_elem_of_fmap in Hg as (i & -> & _).
  apply fmt_02x_group, randint_byte.
Qed.

Lemma groups_from_colon_hex k n : colon_hex n (join ":" (groups_from rand k n)).
Proof.
  exists (groups_from rand k n). split; [|split; [apply groups_from_hex|done]].
  unfold groups_from. by rewrite length_map, length_seq.
Qed.

(** C4, as the code has it. [random_mac] never raises. Without a prefix (or
    with an empty one) it returns six random groups of two lowercase
    hexadecimal digits joined by colons. With a non-empty prefix it returns
    the prefix, a colon and four random groups, whatever the prefix is; that
    is a six-group address when the prefix is two groups, as [02:00] is. *)
Theorem random_mac_shape prefix w :
  let k := rng_draws w in
  (truthy prefix = false →
   fst (random_mac rand prefix w) = Ok (join ":" (groups_from rand k 6)) ∧
   colon_hex 6 (join ":" (groups_from rand k 6))) ∧
  (∀ p, prefix = Some p → p ≠ "" →
   fst (random_mac rand prefix w) = Ok (p +:+ ":" +:+ join ":" (groups_from rand k 4)) ∧
   colon_hex 4 (join ":" (groups_from rand k 4)) ∧
   (colon_hex 2 p → colon_hex 6 (p +:+ ":" +:+ join ":" (groups_from rand k 4)))).
Proof.
  cbv zeta. split.
  - intros Hf. unfold random_mac. rewrite Hf. unfold bind. rewrite random_groups_run.
    split; [done|apply groups_from_colon_hex].
  - intros p -> Hp. unfold random_mac.
    assert (truthy (Some p) = true) as -> by (unfold truthy; by rewrite bool_decide_true).
    unfold bind. rewrite random_groups_run. cbn [default from_option].
    split; [done|]. split; [apply groups_from_colon_hex|].
    intros (gs & Hlen & Hgs & ->).
    exists (gs ++ groups_from rand (rng_draws w) 4). split; [|split].
    + rewrite length_app, Hlen. unfold groups_from. by rewrite length_map, length_seq.
    + apply Forall_app. split; [done|apply groups_from_hex].
    + rewrite join_app; [done|by destruct gs|done].
Qed.

End IdentityGenerator.

(** ** The topology renderer *)

(** C9. Two states with the same table and the same roster get the same
    figure, whatever their blocked sets are: same nodes, labels, edges and
    layout. *)
Theorem draw_graph_ignores_blocked (Layout : Type) (spring_layout : Graph → Z → Layout)
    (w1 w2 : World) :
  arp_table (ctrl w1) = arp_table (ctrl w2) →
  hosts w1 = hosts w2 →
  fst (draw_graph Layout spring_layout (arp_table (ctrl w1)) (blocked_macs (ctrl w1)) w1) =
  fst (draw_graph Layout spring_layout (arp_table (ctrl w2)) (blocked_macs (ctrl w2)) w2).
Proof.
  intros Ht Hh. unfold draw_graph, bind, gets, ret. simpl. by rewrite Ht, Hh.
Qed.

(** ** The simulation driver *)

Section DriverFacts.

Variable clock : nat -> N.
Variable rand : nat -> N.

Lemma one_event_zero_chance sb w :
  Sidebar.mode sb = Sidebar.random →
  (Sidebar.spoof_chance sb == 0)%Q →
  one_event clock rand sb w = normal_arp clock rand (after_draws 1 w).
Proof.
  intros Hmode Hchance. unfold one_event. rewrite Hmode.
  unfold bind at 1. unfold random_random, bind at 1, next_draw, ret at 1.
  destruct (Qlt_le_dec _ _) as [Hlt|Hle]; [|done].
  exfalso. rewrite Hchance in Hlt. unfold Qlt in Hlt. simpl in Hlt.
  rewrite Z.mul_0_l, Z.mul_1_r in Hlt.
  pose proof (N2Z.is_nonneg (rand (rng_draws w) `mod` 2 ^ 53)) as Hpos.
  by apply Z.lt_nge in Hlt.
Qed.

Lemma normal_arp_step w :
  hosts w ≠ [] →
  roster_learned w →
  ∃ h lvl msg,
    h ∈ hosts w ∧
    ((lvl, msg) = ("LEARN", learn_msg (fst h) (snd h) "normal ARP") ∨
     (lvl, msg) = ("DROP", drop_msg (snd h) "normal ARP")) ∧
    normal_arp clock rand w =
    (Ok tt, logged (stamp clock (clock_reads w) lvl msg) (after_draws 1 w)).
Proof.
  intros Hne Hroster. unfold normal_arp, bind at 1, gets at 1.
  destruct (hosts w) as [|x l] eqn:Hh; [done|].
  unfold bind at 1. unfold random_choice, bind at 1, next_draw, ret at 1.
  set (i := N.to_nat (rand (rng_draws w) `mod` N.of_nat (length (x :: l)))).
  set (h := nth i (x :: l) x).
  assert (Hin : h ∈ x :: l).
  { apply nth_elem_of. unfold i.
    pose proof (N.mod_lt (rand (rng_draws w)) (N.of_nat (length (x :: l)))) as Hlt.
    simpl length in *. lia. }
  assert (Hget : dict_get (arp_table (ctrl w)) (fst h) = Some (snd h)).
  { unfold roster_learned in Hroster. rewrite Hh in Hroster.
    by apply (proj1 (Forall_forall _ _) Hroster). }
  set (w1 := mkWorld (ctrl w) (hosts w) (started w) (clock_reads w) (S (rng_draws w))).
  destruct (decide (snd h ∈ blocked_macs (ctrl w))) as [Hb|Hb].
  - exists h, "DROP", (drop_msg (snd h) "normal ARP"). split; [done|]. split; [by right|].
    unfold bind at 1. by rewrite (receive_arp_drop clock (fst h) (snd h) "normal ARP" w1 Hb).
  - exists h, "LEARN", (learn_msg (fst h) (snd h) "normal ARP").
    split; [done|]. split; [by left|].
    unfold bind at 1.
    rewrite (receive_arp_learn clock (fst h) (snd h) "normal ARP" w1 Hb) by (by right).
    unfold ret. f_equal. unfold logged, with_ctrl, after_draws. simpl.
    by rewrite (dict_set_same _ _ _ Hget).
Qed.

(** With the spoof chance at zero, in a session whose roster is not empty and
    is in the table, [n] random-mode steps are [n] normal ARP announcements. *)
Lemma normal_arp_steps sb w (n : nat) :
  Sidebar.mode sb = Sidebar.random →
  (Sidebar.spoof_chance sb == 0)%Q →
  hosts w ≠ [] →
  roster_learned w →
  let w' := snd (events clock rand sb n w) in
  (∀ w0, one_event clock rand sb w0 = normal_arp clock rand (after_draws 1 w0)) ∧
  fst (events clock rand sb n w) = Ok tt ∧
  arp_table (ctrl w') = arp_table (ctrl w) ∧
  blocked_macs (ctrl w') = blocked_macs (ctrl w) ∧
  hosts w' = hosts w ∧
  ∃ items : list (string * string),
    length items = n ∧
    logs (ctrl w') = logs (ctrl w) ++ stamped clock (clock_reads w) items ∧
    Forall (fun it => ∃ h, h ∈ hosts w ∧
                      (it = ("LEARN", learn_msg (fst h) (snd h) "normal ARP") ∨
                       it = ("DROP", drop_msg (snd h) "normal ARP"))) items ∧
    Forall (fun line => entry_level line ≠ Some "ALERT" ∧
                        entry_level line ≠ Some "MITIGATE")
           (stamped clock (clock_reads w) items).
Proof.
  intros Hmode Hchance Hne Hroster. cbv zeta.
  split; [intros w0; by apply one_event_zero_chance|].
  revert w Hne Hroster. induction n as [|n IH]; intros w Hne Hroster.
  - simpl. repeat split. exists []. simpl. rewrite app_nil_r. by repeat split.
  - destruct (normal_arp_step (after_draws 1 w)) as (h & lvl & msg & Hin & Hit & Hrun);
      [done|done|].
    set (w1 := logged (stamp clock (clock_reads (after_draws 1 w)) lvl msg)
                 (after_draws 1 (after_draws 1 w))) in *.
    assert (Hstep : events clock rand sb (S n) w = events clock rand sb n w1).
    { cbn [events]. unfold bind at 1.
      by rewrite (one_event_zero_chance sb w Hmode Hchance), Hrun. }
    rewrite Hstep.
    destruct (IH w1) as (Hr & Ht & Hb & Hh & items & Hlen & Hlogs & Hits & Hlv);
      [done|done|].
    rewrite Hr, Ht, Hb, Hh. repeat split.
    exists ((lvl, msg) :: items). split; [simpl; by rewrite Hlen|].
    split; [rewrite Hlogs; simpl; by rewrite <- app_assoc|].
    split.
    + constructor; [|done]. exists h. split; [done|]. destruct Hit as [<-| <-]; auto.
    + cbn [stamped]. constructor; [|done].
      destruct Hit as [[= -> ->]|[= -> ->]];
        rewrite entry_level_stamp by auto with levels; split; congruence.
Qed.

(** *** Setting up a session *)

Lemma string_app_inj_l (s a b : string) : s +:+ a = s +:+ b → a = b.
Proof.
  induction s as [|c s IH]; [done|].
  change (String c (s +:+ a) = String c (s +:+ b) → a = b).
  intros [= H]. by apply IH.
Qed.

Lemma str_inj i j : str i = str j → i = j.
Proof.
  unfold str. intros H. apply DecimalNat.Unsigned.to_uint_inj.
  pose proof (DecimalString.NilEmpty.usu (Nat.to_uint i)) as Hi.
  pose proof (DecimalString.NilEmpty.usu (Nat.to_uint j)) as Hj.
  rewrite H in Hi. congruence.
Qed.

Lemma gen_hosts_keys k idx :
  dict_keys (gen_hosts rand k idx) = map (fun i => "10.0.0." +:+ str i) idx.
Proof.
  revert k. induction idx as [|i idx IH]; intros k; simpl; [done|].
  f_equal. apply IH.
Qed.

Lemma gen_hosts_NoDup k idx : NoDup idx → NoDup (dict_keys (gen_hosts rand k idx)).
Proof.
  intros Hnd. rewrite gen_hosts_keys. apply NoDup_fmap_2; [|done].
  intros i j H. by apply string_app_inj_l, str_inj in H.
Qed.

Lemma length_gen_hosts k idx : length (gen_hosts rand k idx) = length idx.
Proof. revert k. induction idx as [|i idx IH]; intros k; simpl; [done|]. by rewrite IH. Qed.

Lemma create_host_run i w :
  create_host rand i w =
  (Ok tt, mkWorld (ctrl w) (hosts w ++ gen_hosts rand (rng_draws w) [i]) (started w)
                  (clock_reads w) (4 + rng_draws w)).
Proof. reflexivity. Qed.

Lemma for_each_create_host idx w :
  for_each idx (create_host rand) w =
  (Ok tt, mkWorld (ctrl w) (hosts w ++ gen_hosts rand (rng_draws w) idx) (started w)
                  (clock_reads w) (4 * length idx + rng_draws w)).
Proof.
  revert w. induction idx as [|i idx IH]; intros w.
  - simpl. rewrite app_nil_r. by destruct w.
  - cbn [for_each]. unfold bind at 1. rewrite create_host_run, IH.
    cbn [ctrl hosts started clock_reads rng_draws gen_hosts length].
    rewrite <- app_assoc. simpl app. do 2 f_equal. lia.
Qed.

Lemma session_init_run sb w :
  session_init rand sb w =
  (Ok tt,
   mkWorld (SimpleController_init (Sidebar.block_on_detect sb))
           (gen_hosts rand (rng_draws w) (seq 1 (Sidebar.hosts_count sb))) false
           (clock_reads w) (4 * Sidebar.hosts_count sb + rng_draws w)).
Proof.
  unfold session_init. unfold bind at 1. unfold modify at 1.
  unfold bind at 1. unfold modify at 1. unfold bind at 1.
  rewrite for_each_create_host. by rewrite length_seq.
Qed.

(** The loop of the initial learning step, on a controller that blocks
    nothing yet and has none of the addresses of [hs] in its table. *)
Lemma initial_loop_run (hs : list Host) w :
  blocked_macs (ctrl w) = ∅ →
  NoDup (dict_keys hs) →
  (∀ ip, ip ∈ dict_keys hs → ip ∉ dict_keys (arp_table (ctrl w))) →
  for_each hs (fun h => exec receive_arp clock (fst h) (snd h) "initial ARP" in ret tt) w =
  (Ok tt,
   mkWorld
     (mkController (arp_table (ctrl w) ++ hs) ∅ (block_on_detect (ctrl w))
        (logs (ctrl w) ++
         stamped clock (clock_reads w)
           (map (fun h => ("LEARN", learn_msg (fst h) (snd h) "initial ARP")) hs)))
     (hosts w) (started w) (length hs + clock_reads w) (rng_draws w)).
Proof.
  revert w. induction hs as [|[ip mac] hs IH]; intros w Hb Hnd Hfresh.
  - simpl. rewrite !app_nil_r. destruct w as [[t b a l] h st c r]. simpl in *. by subst.
  - cbn [for_each]. unfold bind at 1. unfold bind at 1. cbn [fst snd].
    apply NoDup_cons in Hnd as [Hip Hnd].
    assert (Hnone : dict_get (arp_table (ctrl w)) ip = None).
    { apply dict_get_None, Hfresh. simpl. apply list_elem_of_here. }
    rewrite (receive_arp_learn clock ip mac "initial ARP" w) by (rewrite ?Hb; set_solver).
    unfold ret at 1. rewrite IH; simpl; rewrite ?dict_set_fresh by done.
    + rewrite <- !app_assoc. simpl. do 2 f_equal. lia.
    + done.
    + done.
    + intros ip' Hip'. unfold dict_keys. rewrite map_app. simpl.
      intros Hin. apply elem_of_app in Hin as [Hin|Hin].
      * revert Hin. apply Hfresh. simpl. by apply list_elem_of_further.
      * apply list_elem_of_singleton in Hin. subst. done.
Qed.

Lemma script_top_run sb has_ctrl w0 :
  has_ctrl = false ∨ Sidebar.reset sb = true →
  script_top clock rand sb has_ctrl w0 = (Ok tt, learned_world clock rand sb w0).
Proof.
  intros Hinit. unfold script_top.
  assert (negb has_ctrl || Sidebar.reset sb = true) as ->.
  { destruct Hinit as [-> | ->]; [done|by destruct has_ctrl]. }
  unfold bind at 1. rewrite session_init_run.
  unfold bind at 1. unfold sync_checkbox at 1, modify at 1.
  unfold initial_learning, bind at 1, gets at 1.
  unfold with_ctrl. cbn [started ctrl hosts clock_reads rng_draws negb].
  unfold bind at 1, gets at 1. unfold bind at 1. cbn [hosts].
  rewrite initial_loop_run.
  - unfold modify, learned_world. simpl. by rewrite length_gen_hosts, length_seq.
  - done.
  - apply gen_hosts_NoDup, NoDup_seq.
  - simpl. intros ip _ Hin. by apply elem_of_nil in Hin.
Qed.

Lemma learned_world_roster sb w0 : roster_learned (learned_world clock rand sb w0).
Proof.
  unfold roster_learned. simpl. apply Forall_forall. intros [ip mac] Hin.
  apply dict_get_NoDup; [|done]. apply gen_hosts_NoDup, NoDup_seq.
Qed.

(** *** The basic-mode step *)

Lemma one_event_basic sb w h0 victim rest :
  Sidebar.mode sb = Sidebar.basic →
  hosts w = h0 :: victim :: rest →
  one_event clock rand sb w =
  (exec receive_arp clock (fst victim) basic_attacker_mac "spoof attempt (basic)" in
   exec receive_arp clock (fst victim) basic_attacker_mac "spoof attempt (basic #2)" in
   ret tt) w.
Proof.
  intros Hmode Hh. unfold one_event. rewrite Hmode. cbv zeta.
  unfold bind at 1, gets at 1. rewrite Hh. reflexivity.
Qed.

(** The first step: ALERT, MITIGATE, then DROP for the repeat. *)
Lemma basic_step_first sb w h0 vip vmac rest :
  Sidebar.mode sb = Sidebar.basic →
  hosts w = h0 :: (vip, vmac) :: rest →
  dict_get (arp_table (ctrl w)) vip = Some vmac →
  vmac ≠ basic_attacker_mac →
  basic_attacker_mac ∉ blocked_macs (ctrl w) →
  block_on_detect (ctrl w) = true →
  let k := clock_reads w in
  let m := snd (receive_arp clock vip basic_attacker_mac "spoof attempt (basic)" w) in
  m = logged (stamp clock (1 + k) "MITIGATE" (mitigate_msg basic_attacker_mac))
        (with_ctrl (fun c => set_blocked_macs (blocked_macs c ∪ {[basic_attacker_mac]}) c)
           (logged (stamp clock k "ALERT"
                      (alert_msg vip vmac basic_attacker_mac "spoof attempt (basic)")) w)) ∧
  one_event clock rand sb w =
  (Ok tt,
   logged (stamp clock (2 + k) "DROP"
             (drop_msg basic_attacker_mac "spoof attempt (basic #2)")) m).
Proof.
  intros Hmode Hh Hget Hne Hnb Hauto. cbv zeta.
  rewrite (one_event_basic sb w h0 (vip, vmac) rest Hmode Hh). cbn [fst].
  unfold bind at 1.
  rewrite (receive_arp_alert clock vip vmac basic_attacker_mac _ w Hnb Hget Hne).
  rewrite Hauto. split; [done|].
  unfold bind at 1. rewrite receive_arp_drop; [done|]. simpl. set_solver.
Qed.

(** Every later step: two DROP entries. *)
Lemma basic_step_again sb w h0 victim rest :
  Sidebar.mode sb = Sidebar.basic →
  hosts w = h0 :: victim :: rest →
  basic_attacker_mac ∈ blocked_macs (ctrl w) →
  let k := clock_reads w in
  let m := snd (receive_arp clock (fst victim) basic_attacker_mac "spoof attempt (basic)" w) in
  m = logged (stamp clock k "DROP" (drop_msg basic_attacker_mac "spoof attempt (basic)")) w ∧
  one_event clock rand sb w =
  (Ok tt,
   logged (stamp clock (1 + k) "DROP"
             (drop_msg basic_attacker_mac "spoof attempt (basic #2)")) m).
Proof.
  intros Hmode Hh Hb. cbv zeta.
  rewrite (one_event_basic sb w h0 victim rest Hmode Hh).
  unfold bind at 1. rewrite (receive_arp_drop clock _ _ _ w Hb).
  split; [done|]. unfold bind at 1. by rewrite receive_arp_drop.
Qed.

(** C3, as the code has it. After a first load or a reset with at least two
    hosts and auto-block on, and the initial learning step: the first
    basic-mode step appends exactly ALERT, MITIGATE, DROP; the second step
    appends two more DROP entries, so two steps in a row leave one ALERT, one
    MITIGATE and three DROP entries; and after each of the four
    announcements the table is the one the learning step left, with the
    second host under its own address. *)
Theorem basic_mode_script sb has_ctrl w0 :
  Sidebar.mode sb = Sidebar.basic →
  (2 ≤ Sidebar.hosts_count sb)%nat →
  Sidebar.block_on_detect sb = true →
  has_ctrl = false ∨ Sidebar.reset sb = true →
  let w1 := snd (script_top clock rand sb has_ctrl w0) in
  let w2 := snd (one_event clock rand sb w1) in
  let w3 := snd (one_event clock rand sb w2) in
  let k := clock_reads w1 in
  ∃ vip vmac,
    let m1 := snd (receive_arp clock vip basic_attacker_mac "spoof attempt (basic)" w1) in
    let m2 := snd (receive_arp clock vip basic_attacker_mac "spoof attempt (basic)" w2) in
    hosts w1 !! 1 = Some (vip, vmac) ∧
    dict_get (arp_table (ctrl w1)) vip = Some vmac ∧
    fst (one_event clock rand sb w1) = Ok tt ∧
    fst (one_event clock rand sb w2) = Ok tt ∧
    w2 = snd (receive_arp clock vip basic_attacker_mac "spoof attempt (basic #2)" m1) ∧
    w3 = snd (receive_arp clock vip basic_attacker_mac "spoof attempt (basic #2)" m2) ∧
    logs (ctrl w2) =
      logs (ctrl w1) ++
      [stamp clock k "ALERT"
         (alert_msg vip vmac basic_attacker_mac "spoof attempt (basic)");
       stamp clock (1 + k) "MITIGATE" (mitigate_msg basic_attacker_mac);
       stamp clock (2 + k) "DROP" (drop_msg basic_attacker_mac "spoof attempt (basic #2)")] ∧
    logs (ctrl w3) =
      logs (ctrl w2) ++
      [stamp clock (3 + k) "DROP" (drop_msg basic_attacker_mac "spoof attempt (basic)");
       stamp clock (4 + k) "DROP" (drop_msg basic_attacker_mac "spoof attempt (basic #2)")] ∧
    map entry_level (drop (length (logs (ctrl w1))) (logs (ctrl w3))) =
      [Some "ALERT"; Some "MITIGATE"; Some "DROP"; Some "DROP"; Some "DROP"] ∧
    Forall (fun w => arp_table (ctrl w) = arp_table (ctrl w1) ∧
                     dict_get (arp_table (ctrl w)) vip = Some vmac)
           [m1; w2; m2; w3].
Proof.
  intros Hmode Hcount Hauto Hinit. cbv zeta.
  rewrite (script_top_run sb has_ctrl w0 Hinit). cbn [snd].
  set (w1 := learned_world clock rand sb w0).
  destruct (Sidebar.hosts_count sb) as [|[|n]] eqn:Hn; [lia|lia|].
  assert (Hhosts : ∃ h0 vip vmac rest,
             hosts w1 = h0 :: (vip, vmac) :: rest ∧ vmac ≠ basic_attacker_mac).
  { unfold w1, learned_world. rewrite Hn. cbn [hosts seq gen_hosts].
    eexists _, _, _, _. split; [reflexivity|]. simpl. discriminate. }
  destruct Hhosts as (h0 & vip & vmac & rest & Hh & Hne).
  assert (Hget : dict_get (arp_table (ctrl w1)) vip = Some vmac).
  { pose proof (learned_world_roster sb w0) as Hr. fold w1 in Hr.
    unfold roster_learned in Hr. rewrite Hh in Hr.
    apply Forall_inv_tail, Forall_inv in Hr. exact Hr. }
  assert (Hnb : basic_attacker_mac ∉ blocked_macs (ctrl w1)) by (simpl; set_solver).
  assert (Hb1 : block_on_detect (ctrl w1) = true) by exact Hauto.
  destruct (basic_step_first sb w1 h0 vip vmac rest Hmode Hh Hget Hne Hnb Hb1)
    as [Hm1 Hrun1].
  cbv zeta in Hm1, Hrun1.
  set (m1 := snd (receive_arp clock vip basic_attacker_mac "spoof attempt (basic)" w1)) in *.
  set (w2 := logged (stamp clock (2 + clock_reads w1) "DROP"
                       (drop_msg basic_attacker_mac "spoof attempt (basic #2)")) m1) in *.
  assert (Hh2 : hosts w2 = h0 :: (vip, vmac) :: rest) by (unfold w2; rewrite Hm1; exact Hh).
  assert (Hb2 : basic_attacker_mac ∈ blocked_macs (ctrl w2)).
  { unfold w2. rewrite Hm1. simpl. set_solver. }
  destruct (basic_step_again sb w2 h0 (vip, vmac) rest Hmode Hh2 Hb2) as [Hm2 Hrun2].
  cbv zeta in Hm2, Hrun2. cbn [fst] in Hm2, Hrun2.
  set (m2 := snd (receive_arp clock vip basic_attacker_mac "spoof attempt (basic)" w2)) in *.
  exists vip, vmac. rewrite Hrun1. cbn [fst snd]. rewrite Hrun2. cbn [fst snd].
  assert (Hb1' : basic_attacker_mac ∈ blocked_macs (ctrl m1)).
  { rewrite Hm1. simpl. set_solver. }
  assert (Hb2' : basic_attacker_mac ∈ blocked_macs (ctrl m2)) by (rewrite Hm2; exact Hb2).
  assert (Hk1 : clock_reads m1 = 2 + clock_reads w1) by (by rewrite Hm1).
  assert (Hk2 : clock_reads w2 = 3 + clock_reads w1) by (unfold w2; simpl; by rewrite Hk1).
  assert (Hk3 : clock_reads m2 = 4 + clock_reads w1).
  { rewrite Hm2. unfold logged at 1. cbn [clock_reads]. by rewrite Hk2. }
  assert (Hl2 : logs (ctrl w2) =
    logs (ctrl w1) ++
    [stamp clock (clock_reads w1) "ALERT"
       (alert_msg vip vmac basic_attacker_mac "spoof attempt (basic)");
     stamp clock (1 + clock_reads w1) "MITIGATE" (mitigate_msg basic_attacker_mac);
     stamp clock (2 + clock_reads w1) "DROP"
       (drop_msg basic_attacker_mac "spoof attempt (basic #2)")]).
  { unfold w2. rewrite Hm1. simpl. by rewrite <- !app_assoc. }
  assert (Hl3 : logs (ctrl (logged (stamp clock (1 + clock_reads w2) "DROP"
                   (drop_msg basic_attacker_mac "spoof attempt (basic #2)")) m2)) =
    logs (ctrl w2) ++
    [stamp clock (3 + clock_reads w1) "DROP"
       (drop_msg basic_attacker_mac "spoof attempt (basic)");
     stamp clock (4 + clock_reads w1) "DROP"
       (drop_msg basic_attacker_mac "spoof attempt (basic #2)")]).
  { rewrite Hm2, Hk2. unfold logged at 1 2. cbn [logs ctrl set_logs].
    by rewrite <- !app_assoc. }
  assert (Ht1 : arp_table (ctrl m1) = arp_table (ctrl w1)) by (by rewrite Hm1).
  assert (Ht2 : arp_table (ctrl w2) = arp_table (ctrl w1)) by exact Ht1.
  assert (Ht3 : arp_table (ctrl m2) = arp_table (ctrl w1)) by (by rewrite Hm2).
  split; [by rewrite Hh|]. split; [done|]. split; [done|]. split; [done|].
  split; [by rewrite (receive_arp_drop clock _ _ _ m1 Hb1'), Hk1|].
  split; [by rewrite (receive_arp_drop clock _ _ _ m2 Hb2'), Hk3, Hk2|].
  split; [exact Hl2|]. split; [exact Hl3|].
  split.
  - rewrite Hl3, Hl2, <- app_assoc, drop_app_length. cbn [app map].
    by rewrite !entry_level_stamp by auto with levels.
  - assert (Hall : ∀ w, arp_table (ctrl w) = arp_table (ctrl w1) →
                     arp_table (ctrl w) = arp_table (ctrl w1) ∧
                     dict_get (arp_table (ctrl w)) vip = Some vmac).
    { intros w Hw. by rewrite Hw. }
    apply Forall_cons_2; [apply Hall, Ht1|].
    apply Forall_cons_2; [apply Hall, Ht2|].
    apply Forall_cons_2; [apply Hall, Ht3|].
    apply Forall_cons_2; [apply Hall, Ht3|].
    apply Forall_nil_2.
Qed.

(** C7. In any session, set up by a first load or a reset with at least one
    host and taken through any sequence of operations since: with the spoof
    chance at zero every random-mode step is the normal-ARP branch, whatever
    the generator draws. [n] steps in a row return normally and append [n]
    entries, each a LEARN (or a DROP) for an address pair of the roster with
    the label [normal ARP], none of them an ALERT or a MITIGATE, and they
    leave the table, the blocked set and the roster as they were. *)
Theorem zero_spoof_chance_only_normal_arp sb0 has_ctrl w0 (os : list op) sb (n : nat) :
  has_ctrl = false ∨ Sidebar.reset sb0 = true →
  (1 ≤ Sidebar.hosts_count sb0)%nat →
  Sidebar.mode sb = Sidebar.random →
  (Sidebar.spoof_chance sb == 0)%Q →
  let w := run_ops clock rand os (snd (script_top clock rand sb0 has_ctrl w0)) in
  let w' := snd (events clock rand sb n w) in
  (∀ w0, one_event clock rand sb w0 = normal_arp clock rand (after_draws 1 w0)) ∧
  fst (events clock rand sb n w) = Ok tt ∧
  arp_table (ctrl w') = arp_table (ctrl w) ∧
  blocked_macs (ctrl w') = blocked_macs (ctrl w) ∧
  hosts w' = hosts w ∧
  ∃ items : list (string * string),
    length items = n ∧
    logs (ctrl w') = logs (ctrl w) ++ stamped clock (clock_reads w) items ∧
    Forall (fun it => ∃ h, h ∈ hosts w ∧
                      (it = ("LEARN", learn_msg (fst h) (snd h) "normal ARP") ∨
                       it = ("DROP", drop_msg (snd h) "normal ARP"))) items ∧
    Forall (fun line => entry_level line ≠ Some "ALERT" ∧
                        entry_level line ≠ Some "MITIGATE")
           (stamped clock (clock_reads w) items).
Proof.
  intros Hinit Hcount Hmode Hchance.
  rewrite (script_top_run sb0 has_ctrl w0 Hinit). cbn [snd].
  pose proof (run_ops_roster_kept clock rand os (learned_world clock rand sb0 w0)) as Hkept.
  apply normal_arp_steps; [done|done| |].
  - destruct Hkept as [-> _]. simpl.
    destruct (Sidebar.hosts_count sb0); [lia|]. discriminate.
  - eapply roster_learned_kept; [exact Hkept|]. apply learned_world_roster.
Qed.

End DriverFacts.

(** * More on the controller *)

Section ControllerMore.

Variable clock : nat -> N.

(** The three cases of [receive_arp], in one statement. *)
Lemma receive_arp_cases ip mac info w :
  (mac ∈ blocked_macs (ctrl w) ∧
   receive_arp clock ip mac info w =
   (Ok (stamp clock (clock_reads w) "DROP" (drop_msg mac info)),
    logged (stamp clock (clock_reads w) "DROP" (drop_msg mac info)) w)) ∨
  ((mac ∉ blocked_macs (ctrl w)) ∧
   ∃ old, dict_get (arp_table (ctrl w)) ip = Some old ∧ old ≠ mac ∧
     receive_arp clock ip mac info w =
     (Ok (stamp clock (clock_reads w) "ALERT" (alert_msg ip old mac info)),
      if block_on_detect (ctrl w)
      then logged (stamp clock (S (clock_reads w)) "MITIGATE" (mitigate_msg mac))
             (with_ctrl (fun c => set_blocked_macs (blocked_macs c ∪ {[mac]}) c)
                (logged (stamp clock (clock_reads w) "ALERT" (alert_msg ip old mac info)) w))
      else logged (stamp clock (clock_reads w) "ALERT" (alert_msg ip old mac info)) w)) ∨
  ((mac ∉ blocked_macs (ctrl w)) ∧
   (dict_get (arp_table (ctrl w)) ip = None ∨ dict_get (arp_table (ctrl w)) ip = Some mac) ∧
   receive_arp clock ip mac info w =
   (Ok (stamp clock (clock_reads w) "LEARN" (learn_msg ip mac info)),
    logged (stamp clock (clock_reads w) "LEARN" (learn_msg ip mac info))
      (with_ctrl (fun c => set_arp_table (dict_set (arp_table c) ip mac) c) w))).
Proof.
  destruct (decide (mac ∈ blocked_macs (ctrl w))) as [Hb|Hb].
  { left. split; [done|]. by apply receive_arp_drop. }
  right. destruct (dict_get (arp_table (ctrl w)) ip) as [old|] eqn:Hget.
  - destruct (decide (old = mac)) as [->|Hne].
    + right. split; [done|]. split; [by right|]. apply receive_arp_learn; [done|by right].
    + left. split; [done|]. exists old. split; [done|]. split; [done|].
      by apply receive_arp_alert.
  - right. split; [done|]. split; [by left|]. apply receive_arp_learn; [done|by left].
Qed.

(** X1. [receive_arp] never raises, whatever the state and the arguments
    (the lookup of the old address cannot miss). It appends the entry it
    returns, followed by at most one more entry, reads the clock once per
    entry, and touches neither the roster nor the generator. *)
Theorem receive_arp_total ip mac info w :
  let w' := snd (receive_arp clock ip mac info w) in
  ∃ line rest,
    fst (receive_arp clock ip mac info w) = Ok line ∧
    logs (ctrl w') = logs (ctrl w) ++ line :: rest ∧
    (length rest ≤ 1)%nat ∧
    clock_reads w' = clock_reads w + S (length rest) ∧
    hosts w' = hosts w ∧ started w' = started w ∧ rng_draws w' = rng_draws w ∧
    block_on_detect (ctrl w') = block_on_detect (ctrl w).
Proof.
  cbv zeta.
  destruct (receive_arp_cases ip mac info w)
    as [[_ ->]|[(_ & old & _ & _ & ->)|(_ & _ & ->)]]; cbn [fst snd].
  - eexists _, []. simpl. repeat split; try done; lia.
  - destruct (block_on_detect (ctrl w)) eqn:Hauto.
    + eexists _, [_]. simpl. rewrite <- app_assoc. simpl. repeat split; try done; lia.
    + eexists _, []. simpl. repeat split; try done; lia.
  - eexists _, []. simpl. repeat split; try done; lia.
Qed.

(** X2. The level of the entry [receive_arp] returns tells the case: DROP
    exactly when the address is blocked, ALERT exactly when it is not blocked
    and the table has another address for the same network address, LEARN
    exactly in the remaining case; it is never MITIGATE. *)
Theorem receive_arp_level ip mac info w :
  ∃ line,
    fst (receive_arp clock ip mac info w) = Ok line ∧
    (entry_level line = Some "DROP" ↔ mac ∈ blocked_macs (ctrl w)) ∧
    (entry_level line = Some "ALERT" ↔
       (mac ∉ blocked_macs (ctrl w)) ∧
       ∃ old, dict_get (arp_table (ctrl w)) ip = Some old ∧ old ≠ mac) ∧
    (entry_level line = Some "LEARN" ↔
       (mac ∉ blocked_macs (ctrl w)) ∧
       (dict_get (arp_table (ctrl w)) ip = None ∨
        dict_get (arp_table (ctrl w)) ip = Some mac)) ∧
    entry_level line ≠ Some "MITIGATE".
Proof.
  destruct (receive_arp_cases ip mac info w)
    as [[Hb ->]|[(Hb & old & Hget & Hne & ->)|(Hb & Hget & ->)]]; cbn [fst];
    eexists; (split; [reflexivity|]); rewrite entry_level_stamp by auto with levels.
  - split; [done|]. split; [split; [done|by intros [? _]]|].
    split; [split; [done|by intros [? _]]|done].
  - split; [split; [done|by intros ?]|].
    split; [split; [intros _; split; [done|by exists old]|done]|].
    split; [|done]. split; [done|]. intros [_ [H|H]]; congruence.
  - split; [split; [done|by intros ?]|].
    split; [|split; [done|done]].
    split; [done|]. intros [_ (old & H & Hne)]. destruct Hget as [Hget|Hget]; congruence.
Qed.

(** X3. Learning: an announcement for a network address the table does not
    have, from an address that is not blocked, returns a LEARN entry, puts the
    pair last in the table, keeps every other binding and the blocked set,
    and appends exactly that entry. *)
Theorem receive_arp_learns_new ip mac info w :
  mac ∉ blocked_macs (ctrl w) →
  dict_get (arp_table (ctrl w)) ip = None →
  let w' := snd (receive_arp clock ip mac info w) in
  let line := stamp clock (clock_reads w) "LEARN" (learn_msg ip mac info) in
  fst (receive_arp clock ip mac info w) = Ok line ∧
  entry_level line = Some "LEARN" ∧
  arp_table (ctrl w') = arp_table (ctrl w) ++ [(ip, mac)] ∧
  dict_get (arp_table (ctrl w')) ip = Some mac ∧
  (∀ ip', ip' ≠ ip →
     dict_get (arp_table (ctrl w')) ip' = dict_get (arp_table (ctrl w)) ip') ∧
  blocked_macs (ctrl w') = blocked_macs (ctrl w) ∧
  logs (ctrl w') = logs (ctrl w) ++ [line].
Proof.
  intros Hb Hget. cbv zeta.
  rewrite (receive_arp_learn clock ip mac info w Hb (or_introl Hget)). cbn [fst snd].
  simpl. rewrite (dict_set_fresh _ _ _ Hget).
  split; [done|]. split; [apply entry_level_stamp; auto with levels|].
  split; [done|]. split; [by rewrite dict_get_snoc, Hget, decide_True|].
  split; [|done]. intros ip' Hne. rewrite dict_get_snoc.
  destruct (dict_get (arp_table (ctrl w)) ip'); [done|]. by rewrite decide_False.
Qed.

(** X4. Re-affirmation: an announcement that repeats the pair the table
    already has, from an address that is not blocked, returns a LEARN entry
    and changes nothing but the log: the table (order included) and the
    blocked set are as before. *)
Theorem receive_arp_reaffirms ip mac info w :
  mac ∉ blocked_macs (ctrl w) →
  dict_get (arp_table (ctrl w)) ip = Some mac →
  let line := stamp clock (clock_reads w) "LEARN" (learn_msg ip mac info) in
  receive_arp clock ip mac info w = (Ok line, logged line w) ∧
  entry_level line = Some "LEARN".
Proof.
  intros Hb Hget. cbv zeta.
  rewrite (receive_arp_learn clock ip mac info w Hb (or_intror Hget)).
  split; [|apply entry_level_stamp; auto with levels].
  f_equal. unfold logged, with_ctrl. simpl. by rewrite (dict_set_same _ _ _ Hget).
Qed.

(** X5. Blocking an address that is not blocked yet returns a MITIGATE
    entry, appends it, adds the address to the blocked set (one element
    more) and leaves the table alone. *)
Theorem block_mac_blocks mac w :
  mac ∉ blocked_macs (ctrl w) →
  let w' := snd (block_mac clock mac w) in
  let line := stamp clock (clock_reads w) "MITIGATE" (mitigate_msg mac) in
  fst (block_mac clock mac w) = Ok (Some line) ∧
  entry_level line = Some "MITIGATE" ∧
  blocked_macs (ctrl w') = blocked_macs (ctrl w) ∪ {[mac]} ∧
  size (blocked_macs (ctrl w')) = S (size (blocked_macs (ctrl w))) ∧
  logs (ctrl w') = logs (ctrl w) ++ [line] ∧
  arp_table (ctrl w') = arp_table (ctrl w).
Proof.
  intros Hb. cbv zeta. rewrite (block_mac_fresh clock mac w Hb). cbn [fst snd]. simpl.
  split; [done|]. split; [apply entry_level_stamp; auto with levels|].
  split; [done|]. split; [|done].
  rewrite size_union by set_solver. rewrite size_singleton. lia.
Qed.

(** X6. Auto-block chains into drop: with auto-block on, a conflicting
    announcement from an address that is not blocked appends ALERT then
    MITIGATE and blocks the address; the next announcement from it, for any
    network address, is dropped and changes neither table nor blocked set. *)
Theorem auto_block_then_drop ip old mac info ip2 info2 w :
  block_on_detect (ctrl w) = true →
  mac ∉ blocked_macs (ctrl w) →
  dict_get (arp_table (ctrl w)) ip = Some old →
  old ≠ mac →
  let k := clock_reads w in
  let w1 := snd (receive_arp clock ip mac info w) in
  let w2 := snd (receive_arp clock ip2 mac info2 w1) in
  logs (ctrl w1) =
    logs (ctrl w) ++ [stamp clock k "ALERT" (alert_msg ip old mac info);
                      stamp clock (S k) "MITIGATE" (mitigate_msg mac)] ∧
  blocked_macs (ctrl w1) = blocked_macs (ctrl w) ∪ {[mac]} ∧
  fst (receive_arp clock ip2 mac info2 w1) =
    Ok (stamp clock (S (S k)) "DROP" (drop_msg mac info2)) ∧
  logs (ctrl w2) = logs (ctrl w1) ++ [stamp clock (S (S k)) "DROP" (drop_msg mac info2)] ∧
  arp_table (ctrl w2) = arp_table (ctrl w) ∧
  blocked_macs (ctrl w2) = blocked_macs (ctrl w1).
Proof.
  intros Hauto Hb Hget Hne. cbv zeta.
  rewrite (receive_arp_alert clock ip old mac info w Hb Hget Hne), Hauto. cbn [snd].
  rewrite receive_arp_drop by (simpl; set_solver). simpl.
  rewrite <- app_assoc. by repeat split.
Qed.

(** X7. [receive_arp] changes the blocked set in one way only: it may add
    the announced address, and only with auto-block on; with auto-block off
    the blocked set is never changed. The table changes in one way only: the
    pair announced may be put in it. *)
Theorem receive_arp_frame ip mac info w :
  let w' := snd (receive_arp clock ip mac info w) in
  (blocked_macs (ctrl w') = blocked_macs (ctrl w) ∨
   (block_on_detect (ctrl w) = true ∧
    blocked_macs (ctrl w') = blocked_macs (ctrl w) ∪ {[mac]})) ∧
  (block_on_detect (ctrl w) = false → blocked_macs (ctrl w') = blocked_macs (ctrl w)) ∧
  (arp_table (ctrl w') = arp_table (ctrl w) ∨
   arp_table (ctrl w') = dict_set (arp_table (ctrl w)) ip mac).
Proof.
  cbv zeta.
  destruct (receive_arp_cases ip mac info w)
    as [[_ ->]|[(_ & old & _ & _ & ->)|(_ & _ & ->)]]; cbn [snd].
  - simpl. split; [by left|]. split; [done|by left].
  - destruct (block_on_detect (ctrl w)) eqn:Hauto; simpl.
    + split; [by right|]. split; [done|by left].
    + split; [by left|]. split; [done|by left].
  - simpl. split; [by left|]. split; [done|by right].
Qed.

(** X8. A log line tells its level and its message: two lines written by
    [_log] with levels among the four are equal only if they have the same
    level, the same message and the same time stamp. *)
Theorem log_line_unambiguous k k' lvl lvl' msg msg' :
  lvl ∈ LEVELS →
  lvl' ∈ LEVELS →
  stamp clock k lvl msg = stamp clock k' lvl' msg' →
  lvl = lvl' ∧ msg = msg' ∧ strftime_HMS (clock k) = strftime_HMS (clock k').
Proof.
  intros Hl Hl' Heq.
  pose proof (parse_entry_stamp clock k lvl msg Hl) as H1.
  pose proof (parse_entry_stamp clock k' lvl' msg' Hl') as H2.
  rewrite Heq, H2 in H1. by inversion H1.
Qed.

End ControllerMore.

(** * More on sessions *)

Section SessionMore.

Variable clock : nat -> N.
Variable rand : nat -> N.

Lemma run_ops_log_extends os w : log_extends clock w (run_ops clock rand os w).
Proof.
  apply keeps_run_ops.
  1: apply log_extends_refl.
  1: apply log_extends_trans.
  1: apply log_extends_log.
  all: intros; (try intros w'); by apply log_extends_same.
Qed.

(** X9. A binding the table has is permanent: after any sequence of
    operations the table still maps the network address to the same hardware
    address, and the roster is the same. *)
Theorem learned_binding_is_permanent (os : list op) w ip mac :
  dict_get (arp_table (ctrl w)) ip = Some mac →
  dict_get (arp_table (ctrl (run_ops clock rand os w))) ip = Some mac ∧
  hosts (run_ops clock rand os w) = hosts w.
Proof.
  intros Hget. destruct (run_ops_roster_kept clock rand os w) as [Hh Ht].
  split; [by apply Ht|done].
Qed.

(** X10. The log and the blocked set are append-only: after any sequence of
    operations the old log is a prefix of the new one, the new entries are
    stamped with the clock reads made in between and carry one of the four
    levels, the log is at least as long, and every blocked address is still
    blocked. *)
Theorem session_state_append_only (os : list op) w :
  let w' := run_ops clock rand os w in
  (∃ items : list (string * string),
     logs (ctrl w') = logs (ctrl w) ++ stamped clock (clock_reads w) items ∧
     Forall (fun it => fst it ∈ LEVELS) items ∧
     clock_reads w' = clock_reads w + length items) ∧
  (length (logs (ctrl w)) ≤ length (logs (ctrl w')))%nat ∧
  blocked_macs (ctrl w) ⊆ blocked_macs (ctrl w').
Proof.
  cbv zeta. destruct (run_ops_log_extends os w) as (items & Hl & Hlog & Hk).
  split; [by exists items|]. split.
  - rewrite Hlog, length_app. lia.
  - apply run_ops_blocked_grows.
Qed.

Lemma gen_hosts_macs k idx :
  Forall (fun h => colon_hex 6 (snd h) ∧ ∃ rest, snd h = "02:00:" +:+ rest)
         (gen_hosts rand k idx).
Proof.
  revert k. induction idx as [|i idx IH]; intros k; simpl; [constructor|].
  constructor; [|apply IH]. simpl. split; [|by eexists].
  exists ["02"; "00"; fmt_02x (randint_value 0 255 (rand k));
          fmt_02x (randint_value 0 255 (rand (S k)));
          fmt_02x (randint_value 0 255 (rand (S (S k))));
          fmt_02x (randint_value 0 255 (rand (S (S (S k)))))].
  split; [done|]. split; [|done].
  repeat (apply Forall_cons_2; [first [done|apply fmt_02x_group, randint_byte]|]).
  apply Forall_nil_2.
Qed.

(** X11. Reset clears all state: whatever the session was, [session_init]
    returns normally and leaves an empty log, an empty table, an empty
    blocked set, the flag [started] off, the auto-block flag as the checkbox
    has it, and a roster of the configured size; it reads no clock. *)
Theorem reset_clears_state sb w :
  let w' := snd (session_init rand sb w) in
  fst (session_init rand sb w) = Ok tt ∧
  logs (ctrl w') = [] ∧
  arp_table (ctrl w') = [] ∧
  blocked_macs (ctrl w') = ∅ ∧
  block_on_detect (ctrl w') = Sidebar.block_on_detect sb ∧
  started w' = false ∧
  length (hosts w') = Sidebar.hosts_count sb ∧
  clock_reads w' = clock_reads w ∧
  rng_draws w' = 4 * Sidebar.hosts_count sb + rng_draws w.
Proof.
  cbv zeta. rewrite session_init_run. cbn [fst snd]. simpl.
  rewrite length_gen_hosts, length_seq. by repeat split.
Qed.

(** X12. The roster [session_init] creates: the network addresses are
    [10.0.0.1], [10.0.0.2], ... in this order, all different; every hardware
    address is six groups of two lowercase hexadecimal digits and starts
    with [02:00:]. *)
Theorem roster_format sb w :
  let roster := hosts (snd (session_init rand sb w)) in
  map fst roster = map (fun i => "10.0.0." +:+ str i) (seq 1 (Sidebar.hosts_count sb)) ∧
  NoDup (map fst roster) ∧
  Forall (fun h => colon_hex 6 (snd h) ∧ ∃ rest, snd h = "02:00:" +:+ rest) roster.
Proof.
  cbv zeta. rewrite session_init_run. cbn [snd hosts].
  split; [apply gen_hosts_keys|]. split; [apply gen_hosts_NoDup, NoDup_seq|].
  apply gen_hosts_macs.
Qed.

(** X13. The first load (or a reset) learns the roster without any alert:
    the script returns normally, the table is the roster in roster order,
    nothing is blocked, the log has one LEARN entry per host and nothing
    else, and [started] is on. *)
Theorem first_load_learns_roster sb has_ctrl w0 :
  has_ctrl = false ∨ Sidebar.reset sb = true →
  let w := snd (script_top clock rand sb has_ctrl w0) in
  fst (script_top clock rand sb has_ctrl w0) = Ok tt ∧
  arp_table (ctrl w) = hosts w ∧
  roster_learned w ∧
  blocked_macs (ctrl w) = ∅ ∧
  started w = true ∧
  logs (ctrl w) =
    stamped clock (clock_reads w0)
      (map (fun h => ("LEARN", learn_msg (fst h) (snd h) "initial ARP")) (hosts w)) ∧
  map entry_level (logs (ctrl w)) = map (fun _ => Some "LEARN") (hosts w) ∧
  length (logs (ctrl w)) = Sidebar.hosts_count sb.
Proof.
  intros Hinit. cbv zeta. rewrite (script_top_run clock rand sb has_ctrl w0 Hinit).
  cbn [fst snd]. split; [done|]. split; [done|].
  split; [apply learned_world_roster|]. split; [done|]. split; [done|].
  split; [done|]. simpl. split.
  - rewrite stamped_levels; [by rewrite map_map|].
    apply Forall_forall. intros it Hit. apply list_elem_of_fmap in Hit as (h & -> & _).
    simpl. auto with levels.
  - by rewrite length_stamped, length_map, length_gen_hosts, length_seq.
Qed.

(** X14. The initial learning step runs once: when the script runs again on
    a started session, without Reset, it only copies the checkbox into the
    controller; log, table, blocked set, roster, clock and generator are
    untouched. *)
Theorem script_top_again sb w :
  started w = true →
  Sidebar.reset sb = false →
  script_top clock rand sb true w =
  (Ok tt, with_ctrl (set_block_on_detect (Sidebar.block_on_detect sb)) w).
Proof.
  intros Hst Hreset. unfold script_top. rewrite Hreset. simpl negb. simpl orb.
  unfold bind at 1, ret at 1. unfold bind at 1. unfold sync_checkbox, modify.
  unfold initial_learning, bind, gets. unfold with_ctrl at 1. cbn [started]. by rewrite Hst.
Qed.

(** X15. Random mode on an empty roster raises [IndexError], whatever the
    spoof chance: [random.choice] has nothing to choose from. The controller
    is untouched; one value has been drawn. *)
Theorem random_step_empty_roster sb w :
  Sidebar.mode sb = Sidebar.random →
  hosts w = [] →
  one_event clock rand sb w = (Raise IndexError, after_draws 1 w).
Proof.
  intros Hmode Hh. unfold one_event. rewrite Hmode.
  unfold bind at 1. unfold random_random, bind at 1, next_draw, ret at 1.
  unfold after_draws.
  destruct (Qlt_le_dec _ _).
  - unfold bind at 1, gets at 1. cbn [hosts]. rewrite Hh. reflexivity.
  - unfold normal_arp, bind at 1, gets at 1. cbn [hosts]. rewrite Hh. reflexivity.
Qed.

(** X16. Once the attacker address of basic mode is blocked, every further
    basic-mode step appends two DROP entries and nothing else: [n] steps
    return normally, append [2 n] DROP entries, and leave table, blocked
    set and roster as they were. *)
Theorem basic_steps_after_block sb w (n : nat) :
  Sidebar.mode sb = Sidebar.basic →
  (2 ≤ length (hosts w))%nat →
  basic_attacker_mac ∈ blocked_macs (ctrl w) →
  let w' := snd (events clock rand sb n w) in
  let items :=
    concat (replicate n
              [("DROP", drop_msg basic_attacker_mac "spoof attempt (basic)");
               ("DROP", drop_msg basic_attacker_mac "spoof attempt (basic #2)")]) in
  fst (events clock rand sb n w) = Ok tt ∧
  logs (ctrl w') = logs (ctrl w) ++ stamped clock (clock_reads w) items ∧
  new_levels w w' = replicate (2 * n) (Some "DROP") ∧
  arp_table (ctrl w') = arp_table (ctrl w) ∧
  blocked_macs (ctrl w') = blocked_macs (ctrl w) ∧
  hosts w' = hosts w.
Proof.
  intros Hmode Hlen Hb. cbv zeta.
  assert (Hmain :
    fst (events clock rand sb n w) = Ok tt ∧
    logs (ctrl (snd (events clock rand sb n w))) =
      logs (ctrl w) ++
      stamped clock (clock_reads w)
        (concat (replicate n
           [("DROP", drop_msg basic_attacker_mac "spoof attempt (basic)");
            ("DROP", drop_msg basic_attacker_mac "spoof attempt (basic #2)")])) ∧
    arp_table (ctrl (snd (events clock rand sb n w))) = arp_table (ctrl w) ∧
    blocked_macs (ctrl (snd (events clock rand sb n w))) = blocked_macs (ctrl w) ∧
    hosts (snd (events clock rand sb n w)) = hosts w).
  { revert w Hlen Hb. induction n as [|n IH]; intros w Hlen Hb.
    - simpl. rewrite app_nil_r. by repeat split.
    - destruct (hosts w) as [|h0 [|victim rest]] eqn:Hh; simpl in Hlen; [lia|lia|].
      destruct (basic_step_again clock rand sb w h0 victim rest Hmode Hh Hb) as [Hm Hrun].
      cbv zeta in Hm, Hrun. rewrite Hm in Hrun.
      set (d1 := stamp clock (clock_reads w) "DROP"
                   (drop_msg basic_attacker_mac "spoof attempt (basic)")) in *.
      set (d2 := stamp clock (1 + clock_reads w) "DROP"
                   (drop_msg basic_attacker_mac "spoof attempt (basic #2)")) in *.
      assert (Hstep : events clock rand sb (S n) w =
                      events clock rand sb n (logged d2 (logged d1 w))).
      { cbn [events]. unfold bind at 1. by rewrite Hrun. }
      rewrite Hstep.
      destruct (IH (logged d2 (logged d1 w))) as (Hr & Hl & Ht & Hbl & Hhs).
      { simpl. rewrite Hh. simpl. lia. }
      { exact Hb. }
      rewrite Hr, Hl, Ht, Hbl, Hhs. simpl. rewrite <- !app_assoc. simpl.
      by rewrite Hh. }
  destruct Hmain as (Hr & Hl & Ht & Hbl & Hhs).
  split; [done|]. split; [done|]. split; [|done].
  unfold new_levels. rewrite Hl, drop_app_length, stamped_levels.
  - clear. induction n as [|n IH]; [done|].
    cbn [replicate concat app map]. rewrite IH.
    replace (2 * S n) with (S (S (2 * n))) by lia. done.
  - clear. induction n as [|n IH]; [constructor|].
    cbn [replicate concat app]. repeat (constructor; [simpl; auto with levels|]). exact IH.
Qed.


End SessionMore.

(** * Invariants of a session that blocks through [receive_arp] only *)

Section Invariants.

Variable clock : nat -> N.
Variable rand : nat -> N.
Variable P : World → Prop.

Hypothesis P_receive :
  ∀ ip mac info w, P w → P (snd (receive_arp clock ip mac info w)).
Hypothesis P_ctrl :
  ∀ w w', logs (ctrl w') = logs (ctrl w) →
          blocked_macs (ctrl w') = blocked_macs (ctrl w) →
          arp_table (ctrl w') = arp_table (ctrl w) →
          P w → P w'.

Let R : World → World → Prop := fun w w' => P w → P w'.

Local Lemma R_refl' : ∀ w, R w w.
Proof. by intros w H. Qed.

Local Lemma R_trans' : ∀ w1 w2 w3, R w1 w2 → R w2 w3 → R w1 w3.
Proof. intros w1 w2 w3 H12 H23 H. by apply H23, H12. Qed.

Local Lemma R_draw' : keeps R (next_draw rand).
Proof. intros w Hw. by apply (P_ctrl w). Qed.

Local Lemma R_receive' ip mac info : keeps R (receive_arp clock ip mac info).
Proof. intros w Hw. by apply P_receive. Qed.

Lemma inv_initial_learning : keeps R (initial_learning clock).
Proof.
  apply (keeps_bind R R_trans'); [apply (keeps_gets R R_refl')|]. intros st.
  destruct (negb st); [|apply (keeps_ret R R_refl')].
  apply (keeps_bind R R_trans'); [apply (keeps_gets R R_refl')|]. intros hs.
  apply (keeps_bind R R_trans'); [|intros _ w Hw; by apply (P_ctrl w)].
  apply (keeps_for_each R R_refl' R_trans'). intros h.
  apply (keeps_bind R R_trans'); [apply R_receive'|]. intros _. apply (keeps_ret R R_refl').
Qed.

Lemma inv_one_event sb : keeps R (one_event clock rand sb).
Proof.
  unfold one_event. destruct (Sidebar.mode sb).
  - cbv zeta. apply (keeps_bind R R_trans'); [apply (keeps_gets R R_refl')|]. intros hs.
    destruct (2 <=? length hs)%nat; [|apply (keeps_ret R R_refl')].
    apply (keeps_bind R R_trans'); [apply (keeps_list_getitem R R_refl')|]. intros victim.
    apply (keeps_bind R R_trans'); [apply R_receive'|]. intros _.
    apply (keeps_bind R R_trans'); [apply R_receive'|]. intros _.
    apply (keeps_ret R R_refl').
  - apply (keeps_bind R R_trans');
      [apply (keeps_random_random rand R R_refl' R_trans' R_draw')|]. intros r.
    destruct (Qlt_le_dec r (Sidebar.spoof_chance sb)).
    + apply (keeps_bind R R_trans'); [apply (keeps_gets R R_refl')|]. intros hs.
      apply (keeps_bind R R_trans');
        [apply (keeps_random_choice rand R R_refl' R_trans' R_draw')|]. intros v. cbv zeta.
      apply (keeps_bind R R_trans');
        [apply (keeps_random_randint rand R R_refl' R_trans' R_draw')|]. intros b1.
      apply (keeps_bind R R_trans');
        [apply (keeps_random_randint rand R R_refl' R_trans' R_draw')|]. intros b2.
      apply (keeps_bind R R_trans'); [apply R_receive'|]. intros _.
      apply (keeps_ret R R_refl').
    + apply (keeps_bind R R_trans'); [apply (keeps_gets R R_refl')|]. intros hs.
      apply (keeps_bind R R_trans');
        [apply (keeps_random_choice rand R R_refl' R_trans' R_draw')|]. intros v.
      apply (keeps_bind R R_trans'); [apply R_receive'|]. intros _.
      apply (keeps_ret R R_refl').
Qed.

Lemma inv_run_op o : is_block o = false → keeps R (run_op clock rand o).
Proof.
  destruct o; simpl; intros Hb; [| done | | |].
  - apply (keeps_bind R R_trans'); [apply R_receive'|]. intros _. apply (keeps_ret R R_refl').
  - intros w Hw. by apply (P_ctrl w).
  - apply inv_initial_learning.
  - apply inv_one_event.
Qed.

Lemma inv_run_ops os w :
  Forall (fun o => is_block o = false) os → P w → P (run_ops clock rand os w).
Proof.
  intros Hos. revert w. induction Hos as [|o os Ho _ IH]; intros w Hw; simpl; [done|].
  apply IH. by apply (inv_run_op o Ho w).
Qed.

End Invariants.

Section BlockedWereAlerted.

Variable clock : nat -> N.
Variable rand : nat -> N.

Lemma alerted_logged line w mac : alerted clock w mac → alerted clock (logged line w) mac.
Proof.
  intros (k & ip & old & info & Hin). exists k, ip, old, info. simpl.
  apply elem_of_app. by left.
Qed.

Lemma receive_arp_alerted ip mac info w :
  (∀ m, m ∈ blocked_macs (ctrl w) → alerted clock w m) →
  ∀ m, m ∈ blocked_macs (ctrl (snd (receive_arp clock ip mac info w))) →
       alerted clock (snd (receive_arp clock ip mac info w)) m.
Proof.
  intros Hinv m.
  destruct (receive_arp_cases clock ip mac info w)
    as [[_ ->]|[(_ & old & _ & _ & ->)|(_ & _ & ->)]]; cbn [snd].
  - simpl. intros Hm. by apply alerted_logged, Hinv.
  - destruct (block_on_detect (ctrl w)); simpl.
    + intros Hm. apply elem_of_union in Hm as [Hm|Hm].
      * apply (alerted_logged _ (logged _ w)), alerted_logged. by apply Hinv.
      * apply elem_of_singleton in Hm as ->.
        exists (clock_reads w), ip, old, info. simpl.
        apply elem_of_app. left. apply elem_of_app. right. apply list_elem_of_here.
    + intros Hm. by apply alerted_logged, Hinv.
  - simpl. intros Hm.
    destruct (Hinv m Hm) as (k & ip' & old & info' & Hin).
    exists k, ip', old, info'. simpl. apply elem_of_app. by left.
Qed.

(** X18. No address is blocked without an alert: in a session that starts
    with nothing blocked and goes through any sequence of operations other
    than direct calls of [block_mac] (the script makes none), every address
    of the blocked set is named as the new address by an ALERT entry of the
    log. *)
Theorem blocked_addresses_were_alerted (os : list op) w :
  blocked_macs (ctrl w) = ∅ →
  Forall (fun o => is_block o = false) os →
  ∀ mac, mac ∈ blocked_macs (ctrl (run_ops clock rand os w)) →
         alerted clock (run_ops clock rand os w) mac.
Proof.
  intros Hempty Hos.
  apply (inv_run_ops clock rand
           (fun w => ∀ m, m ∈ blocked_macs (ctrl w) → alerted clock w m)).
  - intros ip mac info w1. apply receive_arp_alerted.
  - intros w1 w2 Hl Hb _ Hinv m Hm. rewrite Hb in Hm.
    destruct (Hinv m Hm) as (k & ip & old & info & Hin).
    exists k, ip, old, info. by rewrite Hl.
  - done.
  - intros m Hm. rewrite Hempty in Hm. set_solver.
Qed.

End BlockedWereAlerted.

(** * The spoof branch of random mode *)

Section RandomSpoof.

Variable clock : nat -> N.
Variable rand : nat -> N.

Lemma spoof_address_colon_hex b1 b2 :
  colon_hex 6 ("de:ad:be:ef:" +:+ fmt_02x (randint_value 0 255 b1) +:+ ":"
                 +:+ fmt_02x (randint_value 0 255 b2)).
Proof.
  exists ["de"; "ad"; "be"; "ef"; fmt_02x (randint_value 0 255 b1);
          fmt_02x (randint_value 0 255 b2)].
  split; [done|]. split; [|done].
  repeat (apply Forall_cons_2; [first [done|apply fmt_02x_group, randint_byte]|]).
  apply Forall_nil_2.
Qed.

(** X19. The spoof branch of random mode, in any session set up by a first
    load or a reset with at least one host and taken through any operations
    since: when the value drawn is below the spoof chance, the step
    announces the network address of a host of the roster with a fresh
    address [de:ad:be:ef:xx:xx] (six groups of lowercase hexadecimal digits),
    returns normally, never learns it (the table is unchanged), and appends
    either ALERT, or ALERT and MITIGATE, or DROP when the address was already
    blocked. *)
Theorem random_spoof_step sb0 has_ctrl w0 (os : list op) sb :
  has_ctrl = false ∨ Sidebar.reset sb0 = true →
  (1 ≤ Sidebar.hosts_count sb0)%nat →
  Sidebar.mode sb = Sidebar.random →
  (Z.of_N (rand (rng_draws (run_ops clock rand os
                              (snd (script_top clock rand sb0 has_ctrl w0))))
           `mod` 2 ^ 53) # 2 ^ 53 < Sidebar.spoof_chance sb)%Q →
  let w := run_ops clock rand os (snd (script_top clock rand sb0 has_ctrl w0)) in
  let w' := snd (one_event clock rand sb w) in
  let attacker :=
    "de:ad:be:ef:" +:+ fmt_02x (randint_value 0 255 (rand (2 + rng_draws w))) +:+ ":"
      +:+ fmt_02x (randint_value 0 255 (rand (3 + rng_draws w))) in
  ∃ victim,
    victim ∈ hosts w ∧
    colon_hex 6 attacker ∧
    one_event clock rand sb w =
      (exec receive_arp clock (fst victim) attacker "random spoof" in ret tt)
        (after_draws 4 w) ∧
    fst (one_event clock rand sb w) = Ok tt ∧
    arp_table (ctrl w') = arp_table (ctrl w) ∧
    dict_get (arp_table (ctrl w')) (fst victim) = Some (snd victim) ∧
    (new_levels w w' = [Some "DROP"] ∨
     new_levels w w' = [Some "ALERT"] ∨
     new_levels w w' = [Some "ALERT"; Some "MITIGATE"]).
Proof.
  intros Hinit Hcount Hmode. rewrite (script_top_run clock rand sb0 has_ctrl w0 Hinit).
  cbn [snd]. intros Hlt. cbv zeta.
  set (w := run_ops clock rand os (learned_world clock rand sb0 w0)) in *.
  pose proof (run_ops_roster_kept clock rand os (learned_world clock rand sb0 w0)) as Hkept.
  fold w in Hkept.
  assert (Hroster : roster_learned w).
  { eapply roster_learned_kept; [exact Hkept|]. apply learned_world_roster. }
  assert (Hmacs : Forall (fun h => ∃ rest, snd h = "02:00:" +:+ rest) (hosts w)).
  { destruct Hkept as [-> _]. simpl.
    eapply Forall_impl; [apply gen_hosts_macs|]. by intros h [_ H]. }
  assert (Hne : hosts w ≠ []).
  { destruct Hkept as [-> _]. simpl.
    destruct (Sidebar.hosts_count sb0); [lia|]. discriminate. }
  destruct (hosts w) as [|x l] eqn:Hh; [done|].
  set (i := N.to_nat (rand (S (rng_draws w)) `mod` N.of_nat (length (x :: l)))).
  set (victim := nth i (x :: l) x).
  assert (Hin : victim ∈ x :: l).
  { apply nth_elem_of. unfold i.
    pose proof (N.mod_lt (rand (S (rng_draws w))) (N.of_nat (length (x :: l)))) as Hm.
    simpl length in *. lia. }
  assert (Hget : dict_get (arp_table (ctrl w)) (fst victim) = Some (snd victim)).
  { unfold roster_learned in Hroster. rewrite Hh in Hroster.
    by apply (proj1 (Forall_forall _ _) Hroster). }
  set (attacker :=
    "de:ad:be:ef:" +:+ fmt_02x (randint_value 0 255 (rand (2 + rng_draws w))) +:+ ":"
      +:+ fmt_02x (randint_value 0 255 (rand (3 + rng_draws w)))).
  assert (Hatt : snd victim ≠ attacker).
  { destruct (proj1 (Forall_forall _ _) Hmacs victim Hin) as [rest Hrest].
    rewrite Hrest. unfold attacker. cbv [String.append]. discriminate. }
  assert (Hrun : one_event clock rand sb w =
    (exec receive_arp clock (fst victim) attacker "random spoof" in ret tt)
      (after_draws 4 w)).
  { unfold one_event. rewrite Hmode.
    unfold bind at 1. unfold random_random, bind at 1, next_draw at 1, ret at 1.
    destruct (Qlt_le_dec _ _) as [_|Hle]; [|by apply Qle_not_lt in Hle].
    unfold bind at 1, gets at 1. cbn [hosts]. unfold after_draws. rewrite Hh.
    reflexivity. }
  exists victim. split; [done|]. split; [apply spoof_address_colon_hex|].
  split; [exact Hrun|]. rewrite Hrun. unfold bind.
  destruct (receive_arp_cases clock (fst victim) attacker "random spoof" (after_draws 4 w))
    as [[_ ->]|[(_ & old & Hold & _ & ->)|(_ & Hl & _)]].
  - cbn [fst snd]. simpl. split; [done|]. split; [done|]. split; [done|]. left.
    unfold new_levels. simpl. rewrite drop_app_length. simpl.
    by rewrite entry_level_stamp by auto with levels.
  - destruct (block_on_detect (ctrl (after_draws 4 w))); cbn [fst snd]; simpl;
      (split; [done|]); (split; [done|]); (split; [done|]); right.
    + right. unfold new_levels. simpl. rewrite <- app_assoc, drop_app_length. simpl.
      by rewrite !entry_level_stamp by auto with levels.
    + left. unfold new_levels. simpl. rewrite drop_app_length. simpl.
      by rewrite entry_level_stamp by auto with levels.
  - exfalso. simpl in Hl. rewrite Hget in Hl. destruct Hl as [Hl|Hl]; congruence.
Qed.

End RandomSpoof.

(** * The figure *)

Lemma node_names_add_node n attrs G x :
  x ∈ node_names (add_node n attrs G) ↔ x ∈ node_names G ∨ x = n.
Proof.
  unfold add_node, has_node. fold (node_names G). case_bool_decide as Hn.
  - split; [by left|]. intros [H| ->]; done.
  - unfold node_names. simpl. rewrite map_app. simpl.
    rewrite elem_of_app, list_elem_of_singleton. done.
Qed.

Lemma add_node_present n attrs G : n ∈ node_names G → add_node n attrs G = G.
Proof. intros H. unfold add_node, has_node. fold (node_names G). by rewrite bool_decide_true. Qed.

Lemma add_node_fresh n attrs G :
  n ∉ node_names G → add_node n attrs G = mkGraph (nodes G ++ [(n, attrs)]) (edges G).
Proof. intros H. unfold add_node, has_node. fold (node_names G). by rewrite bool_decide_false. Qed.

Lemma attach_run l G :
  "controller" ∈ node_names G →
  attach l G =
  let G1 := add_node l [] G in
  if has_edge G1 "controller" l then G1
  else mkGraph (nodes G1) (edges G1 ++ [("controller", l)]).
Proof.
  intros Hc. unfold attach, add_edge.
  assert (Hc1 : "controller" ∈ node_names (add_node l [] G))
    by (apply node_names_add_node; by left).
  rewrite (add_node_present "controller" [] _ Hc1).
  rewrite (add_node_present l [] (add_node l [] G)); [done|].
  apply node_names_add_node. by right.
Qed.

Lemma star_shape_attach l G : l ≠ "controller" → star_shape G → star_shape (attach l G).
Proof.
  intros Hl (Hc & Hnd & Hed & Hout & Hin).
  rewrite (attach_run l G Hc). cbv zeta.
  assert (Hc1 : "controller" ∈ node_names (add_node l [] G))
    by (apply node_names_add_node; by left).
  assert (Hnd1 : NoDup (node_names (add_node l [] G))).
  { unfold add_node, has_node. fold (node_names G). case_bool_decide as Hn; [done|].
    unfold node_names. simpl. rewrite map_app. simpl.
    apply NoDup_app. split; [done|]. split; [|apply NoDup_singleton].
    intros x Hx Hx'. apply list_elem_of_singleton in Hx'. by subst. }
  assert (He1 : edges (add_node l [] G) = edges G).
  { unfold add_node. by destruct (has_node G l). }
  unfold has_edge. rewrite He1.
  destruct (decide (("controller", l) ∈ edges G)) as [Hin1|Hnin1].
  - rewrite bool_decide_true by done. cbn [orb].
    split; [done|]. split; [done|]. rewrite He1. split; [done|]. split.
    + intros u v Huv. destruct (Hout u v Huv) as (-> & Hv & Hvn).
      split; [done|]. split; [done|]. apply node_names_add_node. by left.
    + intros n Hn Hnc. apply node_names_add_node in Hn as [Hn| ->]; [by apply Hin|done].
  - rewrite bool_decide_false by done.
    rewrite bool_decide_false by (intros H; by destruct (Hout _ _ H) as (-> & _)).
    cbn [orb nodes edges].
    split; [exact Hc1|]. split; [exact Hnd1|]. split; [|split].
    + apply NoDup_app. split; [done|]. split; [|apply NoDup_singleton].
      intros e He He'. apply list_elem_of_singleton in He'. by subst.
    + intros u v Huv. apply elem_of_app in Huv as [Huv|Huv].
      * destruct (Hout u v Huv) as (-> & Hv & Hvn).
        split; [done|]. split; [done|]. apply node_names_add_node. by left.
      * apply list_elem_of_singleton in Huv. injection Huv as -> ->.
        split; [done|]. split; [done|]. apply node_names_add_node. by right.
    + intros n Hn Hnc. apply elem_of_app.
      change (n ∈ node_names (add_node l [] G)) in Hn.
      apply node_names_add_node in Hn as [Hn| ->].
      * left. by apply Hin.
      * right. apply list_elem_of_here.
Qed.

Lemma node_names_attach l G x :
  "controller" ∈ node_names G →
  x ∈ node_names (attach l G) ↔ x ∈ node_names G ∨ x = l.
Proof.
  intros Hc. rewrite (attach_run l G Hc). cbv zeta.
  destruct (has_edge _ _ _); apply node_names_add_node.
Qed.

Lemma star_graph_shape_from ls G :
  Forall (fun l => l ≠ "controller") ls → star_shape G →
  star_shape (fold_left (fun G l => attach l G) ls G) ∧
  ∀ x, x ∈ node_names (fold_left (fun G l => attach l G) ls G) ↔
       x ∈ node_names G ∨ x ∈ ls.
Proof.
  intros Hls. revert G. induction Hls as [|l ls Hl _ IH]; intros G HG; simpl.
  - split; [done|]. intros x. split; [by left|]. intros [H|H]; [done|].
    by apply elem_of_nil in H.
  - destruct (IH (attach l G) (star_shape_attach l G Hl HG)) as [Hs Hn].
    split; [done|]. intros x. rewrite Hn, (node_names_attach l G x (proj1 HG)).
    rewrite elem_of_cons. tauto.
Qed.

Lemma star_shape_start :
  star_shape (add_node "controller" [("bipartite", 0%Z)] (mkGraph [] [])).
Proof.
  unfold star_shape. simpl. split; [apply list_elem_of_here|].
  split; [apply NoDup_singleton|]. split; [apply NoDup_nil_2|]. split.
  - intros u v H. by apply elem_of_nil in H.
  - intros n Hn Hnc. by apply list_elem_of_singleton in Hn.
Qed.

Lemma attach_fresh l G :
  "controller" ∈ node_names G →
  l ∉ node_names G →
  (∀ u v, (u, v) ∈ edges G → u = "controller" ∧ v ∈ node_names G) →
  attach l G = mkGraph (nodes G ++ [(l, [])]) (edges G ++ [("controller", l)]).
Proof.
  intros Hc Hl Hout. rewrite (attach_run l G Hc). cbv zeta.
  rewrite (add_node_fresh l [] G Hl). unfold has_edge. cbn [edges nodes].
  rewrite bool_decide_false by (intros H; by apply Hout in H as [_ H]).
  rewrite bool_decide_false; [done|].
  intros H. apply Hout in H as [-> _]. done.
Qed.

Lemma star_graph_fresh_from ls G :
  "controller" ∈ node_names G →
  (∀ u v, (u, v) ∈ edges G → u = "controller" ∧ v ∈ node_names G) →
  NoDup ls →
  (∀ l, l ∈ ls → l ∉ node_names G) →
  fold_left (fun G l => attach l G) ls G =
  mkGraph (nodes G ++ map (fun l => (l, [])) ls)
          (edges G ++ map (fun l => ("controller", l)) ls).
Proof.
  revert G. induction ls as [|l ls IH]; intros G Hc Hout Hnd Hfresh.
  - simpl. rewrite !app_nil_r. by destruct G.
  - apply NoDup_cons in Hnd as [Hl Hnd]. cbn [fold_left].
    rewrite (attach_fresh l G Hc (Hfresh l (list_elem_of_here _ _)) Hout).
    rewrite IH; cbn [nodes edges].
    + simpl. by rewrite <- !app_assoc.
    + unfold node_names. simpl. rewrite map_app. apply elem_of_app. by left.
    + intros u v Huv. unfold node_names. simpl. rewrite map_app. rewrite elem_of_app.
      apply elem_of_app in Huv as [Huv|Huv].
      * destruct (Hout u v Huv) as [-> Hv]. split; [done|by left].
      * apply list_elem_of_singleton in Huv. injection Huv as -> ->.
        split; [done|]. right. apply list_elem_of_here.
    + done.
    + intros l' Hl' Hin. unfold node_names in Hin. simpl in Hin. rewrite map_app in Hin.
      apply elem_of_app in Hin as [Hin|Hin].
      * revert Hin. apply Hfresh. by apply list_elem_of_further.
      * apply list_elem_of_singleton in Hin. simpl in Hin. by subst.
Qed.

Lemma has_char_app c s1 s2 : has_char c (s1 +:+ s2) = has_char c s1 || has_char c s2.
Proof.
  induction s1 as [|a s1 IH]; [done|].
  change (has_char c (String a (s1 +:+ s2)) = has_char c (String a s1) || has_char c s2).
  simpl. rewrite IH. by rewrite orb_assoc.
Qed.

Lemma label_not_controller a b : a +:+ String "010" b ≠ "controller".
Proof.
  intros H. assert (Hc : has_char "010" (a +:+ String "010" b) = true).
  { rewrite has_char_app. cbn [has_char]. rewrite bool_decide_true by done.
    by destruct (has_char _ a). }
  rewrite H in Hc. vm_compute in Hc. discriminate.
Qed.

Lemma graph_labels_not_controller table hs :
  Forall (fun l => l ≠ "controller") (graph_labels table hs).
Proof.
  unfold graph_labels. apply Forall_app. split; apply Forall_forall; intros l Hl;
    apply list_elem_of_fmap in Hl as (x & -> & _); apply label_not_controller.
Qed.

Section Figure.

Variable Layout : Type.
Variable spring_layout : Graph → Z → Layout.

Lemma draw_graph_run table blocked w :
  draw_graph Layout spring_layout table blocked w =
  (Ok (mkFigure Layout (6, 5)%Z (star_graph (graph_labels table (hosts w)))
         (spring_layout (star_graph (graph_labels table (hosts w))) 42) true 900 8),
   w).
Proof.
  unfold draw_graph, bind, gets, ret.
  assert (Hg :
    fold_left (fun G h =>
                 if bool_decide (fst h ∉ dict_keys table) then
                   let label := fst h +:+ String "010" "(unknown)" in
                   add_edge "controller" label (add_node label [] G)
                 else G)
      (hosts w)
      (fold_left (fun G item =>
                    let label := fst item +:+ String "010" (snd item) in
                    add_edge "controller" label (add_node label [] G))
         table (add_node "controller" [("bipartite", 0%Z)] (mkGraph [] []))) =
    star_graph (graph_labels table (hosts w))).
  { unfold star_graph, graph_labels. rewrite fold_left_app.
    generalize (add_node "controller" [("bipartite", 0%Z)] (mkGraph [] [])) as G.
    intros G.
    assert (H1 : ∀ G0, fold_left (fun G item =>
                    let label := fst item +:+ String "010" (snd item) in
                    add_edge "controller" label (add_node label [] G)) table G0 =
                 fold_left (fun G l => attach l G) (map learned_label table) G0).
    { induction table as [|it t IH]; intros G0; [done|]. simpl. apply IH. }
    rewrite H1. generalize (fold_left (fun G l => attach l G) (map learned_label table) G).
    intros G1. generalize (hosts w) as hs.
    induction hs as [|h hs IH] in G1 |- *; [done|].
    cbn [fold_left]. rewrite filter_cons.
    case_bool_decide as Hk.
    - rewrite decide_True by done. cbn [map fold_left]. apply IH.
    - rewrite decide_False by (intros Hn; by apply Hn). apply IH. }
  cbv zeta. cbv zeta in Hg. by rewrite Hg.
Qed.

(** X20. The figure is a star around the controller, and drawing it is
    display only. [draw_graph] never raises and leaves the session as it is;
    the graph has the node [controller] first, no node twice and no edge
    twice; every edge goes from the controller to another node of the graph,
    and every other node has its edge from the controller (no isolated
    node); the layout is the one of this graph with seed 42. *)
Theorem draw_graph_star table blocked w :
  ∃ fig,
    draw_graph Layout spring_layout table blocked w = (Ok fig, w) ∧
    pos Layout fig = spring_layout (drawn Layout fig) 42 ∧
    (∃ rest, nodes (drawn Layout fig) = ("controller", [("bipartite", 0%Z)]) :: rest) ∧
    NoDup (node_names (drawn Layout fig)) ∧
    NoDup (edges (drawn Layout fig)) ∧
    (∀ u v, (u, v) ∈ edges (drawn Layout fig) →
            u = "controller" ∧ v ≠ "controller" ∧ v ∈ node_names (drawn Layout fig)) ∧
    (∀ n, n ∈ node_names (drawn Layout fig) → n ≠ "controller" →
          ("controller", n) ∈ edges (drawn Layout fig)).
Proof.
  eexists. split; [apply draw_graph_run|]. cbn [pos drawn]. split; [done|].
  destruct (star_graph_shape_from (graph_labels table (hosts w)) _
              (graph_labels_not_controller table (hosts w)) star_shape_start)
    as [(Hc & Hnd & Hed & Hout & Hin) _].
  fold (star_graph (graph_labels table (hosts w))) in *.
  split; [|done].
  unfold star_graph. generalize (graph_labels table (hosts w)) as ls.
  assert (Hgen : ∀ ls G first rest, "controller" ∈ node_names G →
            nodes G = first :: rest →
            ∃ rest', nodes (fold_left (fun G l => attach l G) ls G) = first :: rest').
  { clear. induction ls as [|l ls IH]; intros G first rest HcG HG; simpl; [by eexists|].
    assert (∃ r, nodes (attach l G) = first :: r) as [r Hr].
    { rewrite (attach_run l G HcG). cbv zeta.
      assert (∃ r, nodes (add_node l [] G) = first :: r) as [r Hr].
      { unfold add_node. destruct (has_node G l); [by eexists|].
        simpl. rewrite HG. by eexists. }
      destruct (has_edge _ _ _); simpl; by eexists. }
    apply (IH _ first r); [|done].
    apply node_names_attach; [done|by left]. }
  intros ls. apply (Hgen ls _ _ []); [apply list_elem_of_here|done].
Qed.

(** X21. Topology completeness: the nodes of the figure are exactly the
    controller, one node per pair of the table (labelled with both
    addresses) and one node labelled [(unknown)] per host of the roster
    whose network address the table does not have; a host the table has
    gets no [(unknown)] node of its own. *)
Theorem draw_graph_nodes table blocked w :
  ∃ fig,
    draw_graph Layout spring_layout table blocked w = (Ok fig, w) ∧
    ∀ n, n ∈ node_names (drawn Layout fig) ↔
         n = "controller" ∨
         (∃ ip mac, (ip, mac) ∈ table ∧ n = ip +:+ String "010" mac) ∨
         (∃ h, h ∈ hosts w ∧ (fst h ∉ dict_keys table) ∧
               n = fst h +:+ String "010" "(unknown)").
Proof.
  eexists. split; [apply draw_graph_run|]. cbn [drawn]. intros n.
  destruct (star_graph_shape_from (graph_labels table (hosts w)) _
              (graph_labels_not_controller table (hosts w)) star_shape_start)
    as [_ Hn].
  fold (star_graph (graph_labels table (hosts w))) in Hn. rewrite Hn.
  change (node_names (add_node "controller" [("bipartite", 0%Z)] (mkGraph [] [])))
    with ["controller"].
  unfold graph_labels. rewrite elem_of_app, !list_elem_of_fmap.
  rewrite list_elem_of_singleton. unfold learned_label, unknown_label. split.
  - intros [->|[([ip mac] & -> & Hin)|(h & -> & Hin)]]; [by left| |].
    + right. left. by exists ip, mac.
    + right. right. apply list_elem_of_filter in Hin as [Hk Hin]. by exists h.
  - intros [->|[(ip & mac & Hin & ->)|(h & Hin & Hk & ->)]]; [by left| |].
    + right. left. by exists (ip, mac).
    + right. right. exists h. split; [done|]. by apply list_elem_of_filter.
Qed.

End Figure.

(** ** The figure of a session that has just learned its roster *)

Lemma has_char_uint d : has_char "010" (DecimalString.NilEmpty.string_of_uint d) = false.
Proof. induction d; simpl; done. Qed.

Lemma label_inj a b x y :
  has_char "010" a = false → has_char "010" b = false →
  a +:+ String "010" x = b +:+ String "010" y → a = b ∧ x = y.
Proof.
  revert b. induction a as [|c a IH]; intros [|d b] Ha Hb H.
  - by injection H as ->.
  - exfalso. change (String "010" x = String d (b +:+ String "010" y)) in H.
    injection H as <- _. cbn [has_char] in Hb. by rewrite bool_decide_true in Hb.
  - exfalso. change (String c (a +:+ String "010" x) = String "010" y) in H.
    injection H as -> _. cbn [has_char] in Ha. by rewrite bool_decide_true in Ha.
  - change (String c (a +:+ String "010" x) = String d (b +:+ String "010" y)) in H.
    injection H as -> H. cbn [has_char] in Ha, Hb.
    apply orb_false_iff in Ha as [_ Ha]. apply orb_false_iff in Hb as [_ Hb].
    destruct (IH b Ha Hb H) as [-> ->]. done.
Qed.

Lemma filter_none {A} (P : A → Prop) `{∀ x, Decision (P x)} (l : list A) :
  Forall (fun x => ¬ P x) l → filter P l = [].
Proof.
  induction 1 as [|x l Hx _ IH]; [done|].
  rewrite filter_cons, decide_False by done. exact IH.
Qed.

Lemma filter_all {A} (P : A → Prop) `{∀ x, Decision (P x)} (l : list A) :
  Forall P l → filter P l = l.
Proof.
  induction 1 as [|x l Hx _ IH]; [done|].
  rewrite filter_cons, decide_True by done. by rewrite IH.
Qed.

Section LearnedFigure.

Variable clock : nat -> N.
Variable rand : nat -> N.
Variable Layout : Type.
Variable spring_layout : Graph → Z → Layout.

Lemma gen_hosts_ip_plain k idx :
  Forall (fun h => has_char "010" (fst h) = false) (gen_hosts rand k idx).
Proof.
  revert k. induction idx as [|i idx IH]; intros k; simpl; [constructor|].
  constructor; [|apply IH]. simpl. rewrite has_char_app. unfold str.
  by rewrite has_char_uint.
Qed.

Lemma gen_hosts_labels_NoDup k idx :
  NoDup idx → NoDup (map learned_label (gen_hosts rand k idx)).
Proof.
  intros Hnd. pose proof (gen_hosts_NoDup rand k idx Hnd) as Hkeys.
  apply NoDup_fmap_2_strong; [|by apply (NoDup_fmap_1 fst)].
  intros [ip mac] [ip' mac'] Hin Hin' Heq.
  pose proof (proj1 (Forall_forall _ _) (gen_hosts_ip_plain k idx)) as Hplain.
  destruct (label_inj ip ip' mac mac' (Hplain _ Hin) (Hplain _ Hin') Heq) as [-> ->].
  done.
Qed.

(** X22. After a first load (or a reset) the figure shows the whole roster
    as learned: its nodes are the controller followed by one node per host,
    in roster order, labelled with the host's two addresses; its edges are
    the edges from the controller to these nodes, in the same order; there
    is no [(unknown)] node. *)
Theorem first_load_figure sb has_ctrl w0 :
  has_ctrl = false ∨ Sidebar.reset sb = true →
  let w := snd (script_top clock rand sb has_ctrl w0) in
  ∃ fig,
    draw_graph Layout spring_layout (arp_table (ctrl w)) (blocked_macs (ctrl w)) w =
      (Ok fig, w) ∧
    nodes (drawn Layout fig) =
      ("controller", [("bipartite", 0%Z)]) ::
      map (fun h => (fst h +:+ String "010" (snd h), [])) (hosts w) ∧
    edges (drawn Layout fig) =
      map (fun h => ("controller", fst h +:+ String "010" (snd h))) (hosts w) ∧
    length (nodes (drawn Layout fig)) = S (Sidebar.hosts_count sb).
Proof.
  intros Hinit. cbv zeta. rewrite (script_top_run clock rand sb has_ctrl w0 Hinit).
  cbn [snd]. eexists. split; [apply draw_graph_run|]. cbn [drawn].
  set (roster := gen_hosts rand (rng_draws w0) (seq 1 (Sidebar.hosts_count sb))).
  assert (Hlabels : graph_labels roster roster = map learned_label roster).
  { unfold graph_labels. rewrite filter_none; [by rewrite app_nil_r|].
    apply Forall_forall. intros h Hh Hn. apply Hn.
    apply list_elem_of_fmap. by exists h. }
  change (arp_table (ctrl (learned_world clock rand sb w0))) with roster.
  change (hosts (learned_world clock rand sb w0)) with roster.
  rewrite Hlabels. unfold star_graph.
  rewrite star_graph_fresh_from.
  - cbn [nodes edges app]. rewrite !map_map. split; [done|]. split; [done|].
    simpl. rewrite length_map. unfold roster. by rewrite length_gen_hosts, length_seq.
  - apply list_elem_of_here.
  - intros u v H. by apply elem_of_nil in H.
  - apply gen_hosts_labels_NoDup, NoDup_seq.
  - intros l Hl Hin. apply list_elem_of_fmap in Hl as (h & -> & _).
    apply list_elem_of_singleton in Hin. by apply label_not_controller in Hin.
Qed.

End LearnedFigure.

(** ** The figure of a session that has not learned anything yet *)

Section FreshFigure.

Variable rand : nat -> N.
Variable Layout : Type.
Variable spring_layout : Graph → Z → Layout.

Lemma gen_hosts_unknown_NoDup k idx :
  NoDup idx → NoDup (map unknown_label (gen_hosts rand k idx)).
Proof.
  intros Hnd. pose proof (gen_hosts_NoDup rand k idx Hnd) as Hkeys.
  unfold dict_keys in Hkeys.
  assert (Hmap : map unknown_label (gen_hosts rand k idx) =
                 map (fun ip => ip +:+ String "010" "(unknown)")
                     (map fst (gen_hosts rand k idx))) by (by rewrite map_map).
  rewrite Hmap. apply NoDup_fmap_2_strong; [|done].
  intros ip ip' Hin Hin' Heq.
  assert (Hplain : ∀ x, x ∈ map fst (gen_hosts rand k idx) → has_char "010" x = false).
  { intros x Hx. apply list_elem_of_fmap in Hx as (h & -> & Hh).
    by apply (proj1 (Forall_forall _ _) (gen_hosts_ip_plain rand k idx)). }
  by destruct (label_inj ip ip' _ _ (Hplain _ Hin) (Hplain _ Hin') Heq).
Qed.

(** X23. Right after [session_init], before anything is learned (this is
    the state the script draws on a first load), the figure shows every host
    as unknown: the controller, then one node [<ip> (unknown)] per host in
    roster order, each with its edge from the controller. *)
Theorem fresh_session_figure sb w0 :
  let w := snd (session_init rand sb w0) in
  ∃ fig,
    draw_graph Layout spring_layout (arp_table (ctrl w)) (blocked_macs (ctrl w)) w =
      (Ok fig, w) ∧
    nodes (drawn Layout fig) =
      ("controller", [("bipartite", 0%Z)]) ::
      map (fun h => (fst h +:+ String "010" "(unknown)", [])) (hosts w) ∧
    edges (drawn Layout fig) =
      map (fun h => ("controller", fst h +:+ String "010" "(unknown)")) (hosts w) ∧
    length (nodes (drawn Layout fig)) = S (Sidebar.hosts_count sb).
Proof.
  cbv zeta. rewrite session_init_run. cbn [snd].
  eexists. split; [apply draw_graph_run|]. cbn [drawn ctrl hosts arp_table].
  set (roster := gen_hosts rand (rng_draws w0) (seq 1 (Sidebar.hosts_count sb))).
  change (arp_table (SimpleController_init (Sidebar.block_on_detect sb))) with ([] : dict).
  assert (Hlabels : graph_labels [] roster = map unknown_label roster).
  { unfold graph_labels. cbn [map app]. rewrite filter_all; [done|].
    apply Forall_forall. intros h _. apply not_elem_of_nil. }
  rewrite Hlabels. unfold star_graph. rewrite star_graph_fresh_from.
  - cbn [nodes edges app]. rewrite !map_map. split; [done|]. split; [done|].
    simpl. rewrite length_map. unfold roster. by rewrite length_gen_hosts, length_seq.
  - apply list_elem_of_here.
  - intros u v H. by apply elem_of_nil in H.
  - apply gen_hosts_unknown_NoDup, NoDup_seq.
  - intros l Hl Hin. apply list_elem_of_fmap in Hl as (h & -> & _).
    apply list_elem_of_singleton in Hin. by apply label_not_controller in Hin.
Qed.

End FreshFigure.

(** * The sample session *)

Ltac by_computation := apply (bool_decide_unpack _); vm_compute; exact I.

Example sample_world_hosts :
  hosts sample_world =
  [("10.0.0.1", "02:00:0b:30:55:7a"); ("10.0.0.2", "02:00:9f:c4:e9:0e");
   ("10.0.0.3", "02:00:33:58:7d:a2")].
Proof. vm_compute. reflexivity. Qed.

Example sample_world_logs :
  logs (ctrl sample_world) =
  ["[12:34:56] LEARN: Learned 10.0.0.1 -> 02:00:0b:30:55:7a. (initial ARP)";
   "[12:34:57] LEARN: Learned 10.0.0.2 -> 02:00:9f:c4:e9:0e. (initial ARP)";
   "[12:34:58] LEARN: Learned 10.0.0.3 -> 02:00:33:58:7d:a2. (initial ARP)"].
Proof. vm_compute. reflexivity. Qed.

(** C1 on the sample session: an attacker claims the address of the second host. *)
Lemma conflict_preserves_mapping_witness :
  fst (receive_arp sample_clock "10.0.0.2" "aa:aa:aa:aa:aa:aa" "probe" sample_world) =
    Ok "[12:34:59] ALERT: ARP spoof detected: IP 10.0.0.2 was 02:00:9f:c4:e9:0e, now aa:aa:aa:aa:aa:aa. (probe)" ∧
  dict_get
    (arp_table (ctrl (snd (receive_arp sample_clock "10.0.0.2" "aa:aa:aa:aa:aa:aa" "probe"
                             sample_world))))
    "10.0.0.2" = Some "02:00:9f:c4:e9:0e".
Proof.
  assert (H1 : dict_get (arp_table (ctrl sample_world)) "10.0.0.2" = Some "02:00:9f:c4:e9:0e")
    by (vm_compute; reflexivity).
  assert (H2 : "02:00:9f:c4:e9:0e" ∉ blocked_macs (ctrl sample_world)) by by_computation.
  assert (H3 : "aa:aa:aa:aa:aa:aa" ≠ "02:00:9f:c4:e9:0e") by discriminate.
  assert (H4 : "aa:aa:aa:aa:aa:aa" ∉ blocked_macs (ctrl sample_world)) by by_computation.
  destruct (conflict_preserves_mapping sample_clock sample_world "10.0.0.2"
              "02:00:9f:c4:e9:0e" "aa:aa:aa:aa:aa:aa" "probe" H1 H2 H3 H4)
    as (Hr & _ & _ & _ & Hkeep & _).
  split; [exact Hr|exact Hkeep].
Defined.

(** C2 on the attacked session, after four more operations. *)
Lemma blocked_mac_always_dropped_witness :
  "aa:aa:aa:aa:aa:aa" ∈ blocked_macs (ctrl attacked_world) ∧
  fst (receive_arp sample_clock "10.0.0.1" "aa:aa:aa:aa:aa:aa" "again"
         (run_ops sample_clock sample_rand sample_ops attacked_world)) =
    Ok "[12:35:05] DROP: Packet from blocked MAC aa:aa:aa:aa:aa:aa dropped. (again)".
Proof.
  assert (H : "aa:aa:aa:aa:aa:aa" ∈ blocked_macs (ctrl attacked_world)) by by_computation.
  split; [exact H|].
  destruct (blocked_mac_always_dropped sample_clock sample_rand attacked_world
              "aa:aa:aa:aa:aa:aa" sample_ops "10.0.0.1" "again" H) as (_ & Hr & _).
  rewrite Hr. vm_compute. reflexivity.
Defined.

(** C3 on the sample session: the levels the two steps append. *)
Lemma basic_mode_script_witness :
  Sidebar.mode sample_sidebar = Sidebar.basic ∧
  (2 ≤ Sidebar.hosts_count sample_sidebar)%nat ∧
  Sidebar.block_on_detect sample_sidebar = true ∧
  new_levels sample_world
    (snd (one_event sample_clock sample_rand sample_sidebar
            (snd (one_event sample_clock sample_rand sample_sidebar sample_world)))) =
  [Some "ALERT"; Some "MITIGATE"; Some "DROP"; Some "DROP"; Some "DROP"].
Proof.
  assert (H2 : (2 ≤ Sidebar.hosts_count sample_sidebar)%nat) by (simpl; lia).
  split; [reflexivity|]. split; [exact H2|]. split; [reflexivity|].
  destruct (basic_mode_script sample_clock sample_rand sample_sidebar false blank_world
              eq_refl H2 eq_refl (or_introl eq_refl))
    as (vip & vmac & _ & _ & _ & _ & _ & _ & _ & _ & Hlv & _).
  exact Hlv.
Defined.

(** C3, as the claim states it, fails: two basic-mode steps in a row leave
    three DROP entries after the ALERT and the MITIGATE, not one. *)
Lemma basic_mode_two_steps_counterexample :
  Sidebar.block_on_detect sample_sidebar = true ∧
  length (hosts sample_world) = 3 ∧
  new_levels sample_world
    (snd (one_event sample_clock sample_rand sample_sidebar
            (snd (one_event sample_clock sample_rand sample_sidebar sample_world)))) ≠
  [Some "ALERT"; Some "MITIGATE"; Some "DROP"].
Proof.
  split; [reflexivity|]. split; [vm_compute; reflexivity|].
  intros H. vm_compute in H. discriminate H.
Qed.

(** C4 with the prefix of the host addresses. *)
Lemma random_mac_shape_witness :
  colon_hex 2 "02:00" ∧
  fst (random_mac sample_rand (Some "02:00") blank_world) = Ok "02:00:0b:30:55:7a" ∧
  colon_hex 6 "02:00:0b:30:55:7a".
Proof.
  assert (H2 : colon_hex 2 "02:00").
  { exists ["02"; "00"]. split; [reflexivity|]. split; [|reflexivity].
    apply Forall_cons_2; [reflexivity|]. apply Forall_cons_2; [reflexivity|].
    apply Forall_nil_2. }
  assert (Hp : "02:00" ≠ "") by discriminate.
  destruct (random_mac_shape sample_rand (Some "02:00") blank_world) as [_ H].
  destruct (H "02:00" eq_refl Hp) as (Hr & _ & H6).
  split; [exact H2|]. split; [exact Hr|exact (H6 H2)].
Defined.

(** C4, as the claim states it, fails: with the prefix [de:ad:be:ef] the
    result has four random groups after the prefix, eight groups in all. *)
Lemma random_mac_deadbeef_counterexample :
  fst (random_mac sample_rand (Some "de:ad:be:ef") blank_world) =
    Ok "de:ad:be:ef:0b:30:55:7a" ∧
  colon_hex 8 "de:ad:be:ef:0b:30:55:7a" ∧
  ¬ colon_hex 6 "de:ad:be:ef:0b:30:55:7a".
Proof.
  split; [vm_compute; reflexivity|]. split.
  - exists ["de"; "ad"; "be"; "ef"; "0b"; "30"; "55"; "7a"].
    split; [reflexivity|]. split; [|reflexivity].
    repeat (apply Forall_cons_2; [reflexivity|]). apply Forall_nil_2.
  - intros H. apply colon_hex_length in H. vm_compute in H. discriminate H.
Qed.

(** C5 on the attacked session: the attacker is blocked again. *)
Lemma block_mac_idempotent_witness :
  "aa:aa:aa:aa:aa:aa" ∈ blocked_macs (ctrl attacked_world) ∧
  fst (block_mac sample_clock "aa:aa:aa:aa:aa:aa" attacked_world) = Ok None ∧
  snd (block_mac sample_clock "aa:aa:aa:aa:aa:aa" attacked_world) = attacked_world.
Proof.
  assert (H : "aa:aa:aa:aa:aa:aa" ∈ blocked_macs (ctrl attacked_world)) by by_computation.
  destruct (block_mac_idempotent sample_clock attacked_world "aa:aa:aa:aa:aa:aa")
    as [Hno _].
  destruct (Hno H) as (Hr & _ & _ & _ & Hw).
  split; [exact H|]. split; [exact Hr|exact Hw].
Defined.

(** C6 on a session with one host. *)
Lemma basic_step_needs_two_hosts_witness :
  length (hosts lonely_world) < 2 ∧
  one_event sample_clock sample_rand sample_sidebar lonely_world = (Ok tt, lonely_world).
Proof.
  assert (H : length (hosts lonely_world) < 2) by (simpl; lia).
  split; [exact H|].
  exact (basic_step_needs_two_hosts sample_clock sample_rand sample_sidebar lonely_world
           eq_refl H).
Defined.

(** C7 on the sample session after the attack: three quiet steps. *)
Lemma zero_spoof_chance_only_normal_arp_witness :
  (1 ≤ Sidebar.hosts_count sample_sidebar)%nat ∧
  (Sidebar.spoof_chance quiet_sidebar == 0)%Q ∧
  fst (events sample_clock sample_rand quiet_sidebar 3
         (run_ops sample_clock sample_rand sample_ops sample_world)) = Ok tt ∧
  arp_table (ctrl (snd (events sample_clock sample_rand quiet_sidebar 3
                          (run_ops sample_clock sample_rand sample_ops sample_world)))) =
    arp_table (ctrl (run_ops sample_clock sample_rand sample_ops sample_world)).
Proof.
  assert (H0 : (1 ≤ Sidebar.hosts_count sample_sidebar)%nat) by (simpl; lia).
  assert (H1 : (Sidebar.spoof_chance quiet_sidebar == 0)%Q) by reflexivity.
  destruct (zero_spoof_chance_only_normal_arp sample_clock sample_rand sample_sidebar
              false blank_world sample_ops quiet_sidebar 3
              (or_introl eq_refl) H0 eq_refl H1) as (_ & Hr & Ht & _).
  split; [exact H0|]. split; [exact H1|]. split; [exact Hr|exact Ht].
Defined.

(** C9 on the sample session before and after the attack. *)
Lemma draw_graph_ignores_blocked_witness :
  blocked_macs (ctrl sample_world) ≠ blocked_macs (ctrl attacked_world) ∧
  fst (draw_graph _ rank_layout (arp_table (ctrl sample_world))
         (blocked_macs (ctrl sample_world)) sample_world) =
  fst (draw_graph _ rank_layout (arp_table (ctrl attacked_world))
         (blocked_macs (ctrl attacked_world)) attacked_world).
Proof.
  split; [by_computation|].
  apply (draw_graph_ignores_blocked _ rank_layout sample_world attacked_world);
    vm_compute; reflexivity.
Defined.

(** C10 on the sample session with auto-block off: three identical conflicts. *)
Lemma alerts_not_deduplicated_witness :
  block_on_detect (ctrl lenient_world) = false ∧
  dict_get (arp_table (ctrl lenient_world)) "10.0.0.1" = Some "02:00:0b:30:55:7a" ∧
  ("de:ad:be:ef:00:01" ∉ blocked_macs (ctrl lenient_world)) ∧
  length (logs (ctrl (snd (for_each ["a"; "b"; "c"]
                             (fun info => exec receive_arp sample_clock "10.0.0.1"
                                                "de:ad:be:ef:00:01" info in ret tt)
                             lenient_world)))) =
    length (logs (ctrl lenient_world)) + 3.
Proof.
  assert (H1 : block_on_detect (ctrl lenient_world) = false) by reflexivity.
  assert (H2 : dict_get (arp_table (ctrl lenient_world)) "10.0.0.1" =
               Some "02:00:0b:30:55:7a") by (vm_compute; reflexivity).
  assert (H3 : "de:ad:be:ef:00:01" ≠ "02:00:0b:30:55:7a") by discriminate.
  assert (H4 : "de:ad:be:ef:00:01" ∉ blocked_macs (ctrl lenient_world)) by by_computation.
  destruct (alerts_not_deduplicated sample_clock lenient_world "10.0.0.1"
              "02:00:0b:30:55:7a" "de:ad:be:ef:00:01" ["a"; "b"; "c"] H1 H2 H3 H4)
    as (_ & _ & _ & Hlen & _).
  split; [exact H1|]. split; [exact H2|]. split; [exact H4|exact Hlen].
Defined.

(** ** The further properties on the sample session *)

(** X3 on the sample session: a fourth address announces itself. *)
Lemma receive_arp_learns_new_witness :
  ("02:00:aa:bb:cc:dd" ∉ blocked_macs (ctrl sample_world)) ∧
  dict_get (arp_table (ctrl sample_world)) "10.0.0.9" = None ∧
  dict_get
    (arp_table (ctrl (snd (receive_arp sample_clock "10.0.0.9" "02:00:aa:bb:cc:dd" "late"
                             sample_world))))
    "10.0.0.9" = Some "02:00:aa:bb:cc:dd".
Proof.
  assert (H1 : "02:00:aa:bb:cc:dd" ∉ blocked_macs (ctrl sample_world)) by by_computation.
  assert (H2 : dict_get (arp_table (ctrl sample_world)) "10.0.0.9" = None)
    by (vm_compute; reflexivity).
  destruct (receive_arp_learns_new sample_clock "10.0.0.9" "02:00:aa:bb:cc:dd" "late"
              sample_world H1 H2) as (_ & _ & _ & Hget & _).
  split; [exact H1|]. split; [exact H2|exact Hget].
Defined.

(** X4 on the sample session: the first host announces itself again. *)
Lemma receive_arp_reaffirms_witness :
  ("02:00:0b:30:55:7a" ∉ blocked_macs (ctrl sample_world)) ∧
  dict_get (arp_table (ctrl sample_world)) "10.0.0.1" = Some "02:00:0b:30:55:7a" ∧
  receive_arp sample_clock "10.0.0.1" "02:00:0b:30:55:7a" "again" sample_world =
  (Ok (stamp sample_clock (clock_reads sample_world) "LEARN"
         (learn_msg "10.0.0.1" "02:00:0b:30:55:7a" "again")),
   logged (stamp sample_clock (clock_reads sample_world) "LEARN"
             (learn_msg "10.0.0.1" "02:00:0b:30:55:7a" "again")) sample_world).
Proof.
  assert (H1 : "02:00:0b:30:55:7a" ∉ blocked_macs (ctrl sample_world)) by by_computation.
  assert (H2 : dict_get (arp_table (ctrl sample_world)) "10.0.0.1" =
               Some "02:00:0b:30:55:7a") by (vm_compute; reflexivity).
  destruct (receive_arp_reaffirms sample_clock "10.0.0.1" "02:00:0b:30:55:7a" "again"
              sample_world H1 H2) as [Hrun _].
  split; [exact H1|]. split; [exact H2|exact Hrun].
Defined.

(** X5 on the sample session: the attacker is blocked by hand. *)
Lemma block_mac_blocks_witness :
  ("aa:aa:aa:aa:aa:aa" ∉ blocked_macs (ctrl sample_world)) ∧
  size (blocked_macs (ctrl (snd (block_mac sample_clock "aa:aa:aa:aa:aa:aa"
                                   sample_world)))) =
    S (size (blocked_macs (ctrl sample_world))).
Proof.
  assert (H1 : "aa:aa:aa:aa:aa:aa" ∉ blocked_macs (ctrl sample_world)) by by_computation.
  destruct (block_mac_blocks sample_clock "aa:aa:aa:aa:aa:aa" sample_world H1)
    as (_ & _ & _ & Hsize & _).
  split; [exact H1|exact Hsize].
Defined.

(** X6 on the sample session: the attacker claims the second host, then the
    third. *)
Lemma auto_block_then_drop_witness :
  block_on_detect (ctrl sample_world) = true ∧
  dict_get (arp_table (ctrl sample_world)) "10.0.0.2" = Some "02:00:9f:c4:e9:0e" ∧
  fst (receive_arp sample_clock "10.0.0.3" "aa:aa:aa:aa:aa:aa" "second try"
         (snd (receive_arp sample_clock "10.0.0.2" "aa:aa:aa:aa:aa:aa" "first try"
                 sample_world))) =
    Ok (stamp sample_clock 5 "DROP" (drop_msg "aa:aa:aa:aa:aa:aa" "second try")).
Proof.
  assert (H0 : block_on_detect (ctrl sample_world) = true) by reflexivity.
  assert (H1 : "aa:aa:aa:aa:aa:aa" ∉ blocked_macs (ctrl sample_world)) by by_computation.
  assert (H2 : dict_get (arp_table (ctrl sample_world)) "10.0.0.2" =
               Some "02:00:9f:c4:e9:0e") by (vm_compute; reflexivity).
  assert (H3 : "02:00:9f:c4:e9:0e" ≠ "aa:aa:aa:aa:aa:aa") by discriminate.
  destruct (auto_block_then_drop sample_clock "10.0.0.2" "02:00:9f:c4:e9:0e"
              "aa:aa:aa:aa:aa:aa" "first try" "10.0.0.3" "second try" sample_world
              H0 H1 H2 H3) as (_ & _ & Hdrop & _).
  split; [exact H0|]. split; [exact H2|exact Hdrop].
Defined.

(** X8 on two lines of the sample clock. *)
Lemma log_line_unambiguous_witness :
  "DROP" ∈ LEVELS ∧
  stamp sample_clock 0 "DROP" "m" = stamp sample_clock 0 "DROP" "m" ∧
  strftime_HMS (sample_clock 0) = strftime_HMS (sample_clock 0).
Proof.
  destruct (log_line_unambiguous sample_clock 0 0 "DROP" "DROP" "m" "m"
              level_DROP level_DROP eq_refl) as (_ & _ & Hts).
  split; [exact level_DROP|]. split; [reflexivity|exact Hts].
Defined.

(** X9 on the sample session: the second host's binding after the attack. *)
Lemma learned_binding_is_permanent_witness :
  dict_get (arp_table (ctrl sample_world)) "10.0.0.2" = Some "02:00:9f:c4:e9:0e" ∧
  dict_get (arp_table (ctrl (run_ops sample_clock sample_rand sample_ops sample_world)))
    "10.0.0.2" = Some "02:00:9f:c4:e9:0e".
Proof.
  assert (H : dict_get (arp_table (ctrl sample_world)) "10.0.0.2" =
              Some "02:00:9f:c4:e9:0e") by (vm_compute; reflexivity).
  destruct (learned_binding_is_permanent sample_clock sample_rand sample_ops sample_world
              "10.0.0.2" "02:00:9f:c4:e9:0e" H) as [Hget _].
  split; [exact H|exact Hget].
Defined.

(** X13 on the sample session. *)
Lemma first_load_learns_roster_witness :
  arp_table (ctrl sample_world) = hosts sample_world ∧
  blocked_macs (ctrl sample_world) = ∅ ∧
  length (logs (ctrl sample_world)) = 3.
Proof.
  destruct (first_load_learns_roster sample_clock sample_rand sample_sidebar false
              blank_world (or_introl eq_refl)) as (_ & Ht & _ & Hb & _ & _ & _ & Hlen).
  split; [exact Ht|]. split; [exact Hb|exact Hlen].
Defined.

(** X14 on the attacked session: the script runs again. *)
Lemma script_top_again_witness :
  started attacked_world = true ∧
  Sidebar.reset quiet_sidebar = false ∧
  script_top sample_clock sample_rand quiet_sidebar true attacked_world =
  (Ok tt, with_ctrl (set_block_on_detect (Sidebar.block_on_detect quiet_sidebar))
            attacked_world).
Proof.
  assert (H : started attacked_world = true) by (vm_compute; reflexivity).
  split; [exact H|]. split; [reflexivity|].
  exact (script_top_again sample_clock sample_rand quiet_sidebar attacked_world H eq_refl).
Defined.

(** X15 on a session without hosts. *)
Lemma random_step_empty_roster_witness :
  hosts blank_world = [] ∧
  fst (one_event sample_clock sample_rand noisy_sidebar blank_world) = Raise IndexError.
Proof.
  split; [reflexivity|].
  by rewrite (random_step_empty_roster sample_clock sample_rand noisy_sidebar blank_world
                eq_refl eq_refl).
Defined.

(** X16 on the attacked session: two more basic-mode steps. *)
Lemma basic_steps_after_block_witness :
  (2 ≤ length (hosts attacked_world))%nat ∧
  basic_attacker_mac ∈ blocked_macs (ctrl attacked_world) ∧
  new_levels attacked_world
    (snd (events sample_clock sample_rand sample_sidebar 2 attacked_world)) =
  [Some "DROP"; Some "DROP"; Some "DROP"; Some "DROP"].
Proof.
  assert (H1 : (2 ≤ length (hosts attacked_world))%nat) by by_computation.
  assert (H2 : basic_attacker_mac ∈ blocked_macs (ctrl attacked_world)) by by_computation.
  destruct (basic_steps_after_block sample_clock sample_rand sample_sidebar attacked_world 2
              eq_refl H1 H2) as (_ & _ & Hlv & _).
  split; [exact H1|]. split; [exact H2|exact Hlv].
Defined.


(** X18 on the sample session: two basic-mode steps block the attacker. *)
Lemma blocked_addresses_were_alerted_witness :
  blocked_macs (ctrl sample_world) = ∅ ∧
  basic_attacker_mac ∈
    blocked_macs (ctrl (run_ops sample_clock sample_rand
                          [OpEvent sample_sidebar; OpEvent sample_sidebar] sample_world)) ∧
  alerted sample_clock
    (run_ops sample_clock sample_rand [OpEvent sample_sidebar; OpEvent sample_sidebar]
       sample_world)
    basic_attacker_mac.
Proof.
  assert (H1 : blocked_macs (ctrl sample_world) = ∅) by reflexivity.
  assert (H2 : Forall (fun o => is_block o = false)
                 [OpEvent sample_sidebar; OpEvent sample_sidebar]).
  { apply Forall_cons_2; [reflexivity|]. apply Forall_cons_2; [reflexivity|].
    apply Forall_nil_2. }
  assert (H3 : basic_attacker_mac ∈
                 blocked_macs (ctrl (run_ops sample_clock sample_rand
                   [OpEvent sample_sidebar; OpEvent sample_sidebar] sample_world)))
    by by_computation.
  split; [exact H1|]. split; [exact H3|].
  exact (blocked_addresses_were_alerted sample_clock sample_rand _ sample_world H1 H2
           basic_attacker_mac H3).
Defined.

(** X19 on the sample session, right after its first load: a spoof step. *)
Lemma random_spoof_step_witness :
  (1 ≤ Sidebar.hosts_count sample_sidebar)%nat ∧
  (Z.of_N (sample_rand
             (rng_draws (run_ops sample_clock sample_rand []
                           (snd (script_top sample_clock sample_rand sample_sidebar false
                                   blank_world))))
           `mod` 2 ^ 53) # 2 ^ 53 < Sidebar.spoof_chance noisy_sidebar)%Q ∧
  fst (one_event sample_clock sample_rand noisy_sidebar
         (run_ops sample_clock sample_rand []
            (snd (script_top sample_clock sample_rand sample_sidebar false blank_world)))) =
    Ok tt.
Proof.
  assert (H1 : (1 ≤ Sidebar.hosts_count sample_sidebar)%nat) by (simpl; lia).
  assert (H2 : (Z.of_N (sample_rand
             (rng_draws (run_ops sample_clock sample_rand []
                           (snd (script_top sample_clock sample_rand sample_sidebar false
                                   blank_world))))
           `mod` 2 ^ 53) # 2 ^ 53 < Sidebar.spoof_chance noisy_sidebar)%Q)
    by (vm_compute; reflexivity).
  destruct (random_spoof_step sample_clock sample_rand sample_sidebar false blank_world []
              noisy_sidebar (or_introl eq_refl) H1 eq_refl H2)
    as (victim & _ & _ & _ & Hr & _).
  split; [exact H1|]. split; [exact H2|exact Hr].
Defined.

(** X22 on the sample session: four nodes. *)
Lemma first_load_figure_witness :
  ∃ fig,
    draw_graph _ rank_layout (arp_table (ctrl sample_world))
      (blocked_macs (ctrl sample_world)) sample_world = (Ok fig, sample_world) ∧
    length (nodes (drawn _ fig)) = 4.
Proof.
  destruct (first_load_figure sample_clock sample_rand _ rank_layout sample_sidebar false
              blank_world (or_introl eq_refl)) as (fig & Hrun & _ & _ & Hlen).
  exists fig. split; [exact Hrun|exact Hlen].
Defined.
